(** * slack-archive: the channel-history pipeline of [virtual_courier.py]

    A shallow embedding of the functions of [VirtualCourierArchive] and of the
    helpers beside it, followed by the properties the specification states
    about them.

    Conventions.
    - A Python [str] is a list of Unicode code points ([N]); [py "..."] turns
      an ASCII literal into one.
    - A Python exception is a value of [exn]; a call that may raise returns a
      [result].  Python's [None] is [None] of an [option].
    - A [dict] indexed by strings is a [gmap str _]; a JSON record of the Slack
      Web API is a record whose absent keys are [None]. *)

From Stdlib Require Import ZArith NArith List String Ascii Lia Decimal DecimalNat.
From stdpp Require Import base option list gmap.

Local Open Scope Z_scope.

(** ** Strings *)

Abbreviation str := (list N).

Definition py (s : string) : str :=
  map N_of_ascii (list_ascii_of_string s).

(** [s.startswith(p)] *)
Fixpoint startswith (s p : str) : bool :=
  match p, s with
  | [], _ => true
  | _ :: _, [] => false
  | a :: p', b :: s' => if N.eqb a b then startswith s' p' else false
  end.

(** [str.replace(old, new)] scans left to right; at an occurrence of [old] it
    emits [new] and resumes after the occurrence ([skip] counts the code
    points of the occurrence that are still to be passed over). *)
Fixpoint replace_from (old new : str) (skip : nat) (s : str) : str :=
  match s with
  | [] => []
  | c :: s' =>
      match skip with
      | S k => replace_from old new k s'
      | O =>
          if startswith s old
          then new ++ replace_from old new (Nat.pred (length old)) s'
          else c :: replace_from old new O s'
      end
  end.

(** With an empty [old], Python puts [new] before every code point and at the
    end. *)
Definition str_replace (s old new : str) : str :=
  match old with
  | [] => new ++ flat_map (fun c => c :: new) s
  | _ :: _ => replace_from old new O s
  end.

(** [s.rfind(c)] for a one-character [c]: the highest index, or -1. *)
Fixpoint rfind (s : str) (c : N) : Z :=
  match s with
  | [] => -1
  | a :: s' =>
      let r := rfind s' c in
      if 0 <=? r then r + 1 else if N.eqb a c then 0 else -1
  end.

(** [str(n)] for a non-negative [int]. *)
Fixpoint uint_digits (d : uint) : str :=
  match d with
  | Nil => []
  | D0 d => 48%N :: uint_digits d
  | D1 d => 49%N :: uint_digits d
  | D2 d => 50%N :: uint_digits d
  | D3 d => 51%N :: uint_digits d
  | D4 d => 52%N :: uint_digits d
  | D5 d => 53%N :: uint_digits d
  | D6 d => 54%N :: uint_digits d
  | D7 d => 55%N :: uint_digits d
  | D8 d => 56%N :: uint_digits d
  | D9 d => 57%N :: uint_digits d
  end.

Definition str_of_nat (n : nat) : str := uint_digits (Nat.to_uint n).

(** ** Exceptions *)

Inductive exn : Type :=
  | RuntimeError (msg : str)
  | KeyError (key : str)
  | TypeError
  | AttributeError
  | UnboundLocalError
  | FileNotFoundError
  | NotADirectoryError
  | SlackApiError (info : str)
  | URLError (reason : str).

Inductive result (A : Type) : Type :=
  | Ok (a : A)
  | Raise (e : exn).
Arguments Ok {A} a.
Arguments Raise {A} e.

Definition bind {A B} (r : result A) (k : A -> result B) : result B :=
  match r with
  | Ok a => k a
  | Raise e => Raise e
  end.

Notation "x <- r ;; k" := (bind r (fun x => k))
  (at level 100, r at next level, right associativity).

(** [d[key]] on a field that may be absent. *)
Definition getitem {A} (key : string) (o : option A) : result A :=
  match o with
  | Some a => Ok a
  | None => Raise (KeyError (py key))
  end.

(** How a run of [make_csv] or [make_pdf] ends: these two can also raise the
    [UnicodeEncodeError] of a codec. *)
Inductive outcome (A : Type) : Type :=
  | Returned (a : A)
  | Raised (e : exn)
  | RaisedUnicodeEncodeError.
Arguments Returned {A} a.
Arguments Raised {A} e.
Arguments RaisedUnicodeEncodeError {A}.

(** ** [os.path.splitext] *)

(** [genericpath._splitext(p, sep, altsep, extsep)].  The loop skips the
    leading dots of the last path component; [n] is the number of indices
    left below [dotIndex]. *)
Fixpoint skip_leading_dots (p : str) (extsep : N) (dotIndex : Z)
    (n : nat) (filenameIndex : Z) : option (str * str) :=
  match n with
  | O => None
  | S n' =>
      if bool_decide (p !! Z.to_nat filenameIndex = Some extsep)
      then skip_leading_dots p extsep dotIndex n' (filenameIndex + 1)
      else Some (take (Z.to_nat dotIndex) p, drop (Z.to_nat dotIndex) p)
  end.

Definition _splitext (p : str) (sep : N) (altsep : option N) (extsep : N)
    : str * str :=
  let sepIndex := rfind p sep in
  let sepIndex :=
    match altsep with
    | Some a => Z.max sepIndex (rfind p a)
    | None => sepIndex
    end in
  let dotIndex := rfind p extsep in
  if sepIndex <? dotIndex then
    let filenameIndex := sepIndex + 1 in
    match skip_leading_dots p extsep dotIndex
            (Z.to_nat (dotIndex - filenameIndex)) filenameIndex with
    | Some r => r
    | None => (p, [])
    end
  else (p, []).

(** [posixpath.splitext]: [sep = '/'], no [altsep], [extsep = '.']. *)
Definition splitext (p : str) : str * str :=
  _splitext p 47%N None 46%N.

(** ** [unique_filename] *)

(** The [while] loop of [unique_filename]; [fuel] bounds the iterations. *)
Fixpoint unique_filename_loop (fuel : nat) (split_filename ext : str)
    (file_list : list str) (filename : str) (counter : nat)
    : option str :=
  match fuel with
  | O => None
  | S fuel' =>
      if bool_decide (filename ++ ext ∈ file_list)
      then unique_filename_loop fuel' split_filename ext file_list
             (split_filename ++ py " (" ++ str_of_nat counter ++ py ")")
             (S counter)
      else Some (filename ++ ext)
  end.

Definition unique_filename_fuel (fuel : nat) (orig_filename : str)
    (file_list : list str) : option str :=
  let '(filename, ext) := splitext orig_filename in
  let split_filename := filename in
  unique_filename_loop fuel split_filename ext file_list filename 1%nat.

(** The loop ends within [S (length file_list)] iterations (see
    [unique_filename_fuel_enough]), so the fallback is never taken. *)
Definition unique_filename (orig_filename : str) (file_list : list str) : str :=
  default orig_filename
    (unique_filename_fuel (S (length file_list)) orig_filename file_list).

(** [posixpath.join(a, b)] *)
Definition path_join (a b : str) : str :=
  if startswith b (py "/") then b
  else if bool_decide (a = []) || bool_decide (last a = Some 47%N) then a ++ b
  else a ++ py "/" ++ b.

(** [s.lower()] on the ASCII letters (other code points are left as they are;
    no code point outside ASCII lowers to one of c, s, v, p, d, f). *)
Definition lower (s : str) : str :=
  map (fun c => if (65 <=? c)%N && (c <=? 90)%N then (c + 32)%N else c) s.

(** ** The regular expression of [_normalize_text] *)

(** The pattern is a sequence of literal characters and starred character
    classes.  [match_here] is the backtracking matcher of [re]: a star takes
    the longest run first and gives code points back while the rest of the
    pattern fails.  It returns the length of the match. *)
Inductive re_item : Type :=
  | Lit (c : N)
  | StarClass (cls : N -> bool).

Fixpoint match_here (items : list re_item) : str -> option nat :=
  match items with
  | [] => fun _ => Some O
  | Lit c :: rest => fun s =>
      match s with
      | x :: s' => if N.eqb x c then S <$> match_here rest s' else None
      | [] => None
      end
  | StarClass cls :: rest =>
      fix star (s : str) : option nat :=
        match s with
        | x :: s' =>
            if cls x then
              match star s' with
              | Some n => Some (S n)
              | None => match_here rest s
              end
            else match_here rest s
        | [] => match_here rest []
        end
  end.

(** [re.search(pattern, s)]: the match at the leftmost position that has one;
    the value is [result.group(0)]. *)
Fixpoint re_search (items : list re_item) (s : str) : option str :=
  match match_here items s with
  | Some n => Some (take n s)
  | None =>
      match s with
      | [] => None
      | _ :: s' => re_search items s'
      end
  end.

(** [[a-zA-Z0-9]] *)
Definition alnum (c : N) : bool :=
  ((97 <=? c) && (c <=? 122) || (65 <=? c) && (c <=? 90)
   || (48 <=? c) && (c <=? 57))%N.

(** [r"<@[a-zA-Z0-9]*>"] *)
Definition pattern : list re_item :=
  [Lit 60%N; Lit 64%N; StarClass alnum; Lit 62%N].

(** [s[2:-1]] *)
Definition slice_2_m1 (s : str) : str :=
  drop 2 (take (length s - 1) s).

(** ** [_normalize_text] *)

(** The result is Python's [None] when [possible_user_id] is false: the
    function then ends without a [return]. *)
Definition _normalize_text (members : gmap str str) (text : option str)
    (possible_user_id : bool) : result (option str) :=
  match text with
  | None => Raise AttributeError
  | Some text =>
      let text := str_replace text [8217%N] (py "'") in
      let text := str_replace text [8230%N] (py "...") in
      if possible_user_id then
        match re_search pattern text with
        | Some result_text =>
            let user_id := slice_2_m1 result_text in
            let user_name :=
              match members !! user_id with
              | Some n => n
              | None => user_id
              end in
            let replace_with := py "@" ++ user_name in
            let new_text := str_replace text result_text replace_with in
            Ok (Some new_text)
        | None => Ok (Some text)
        end
      else Ok None
  end.

(** ** Records of the Slack Web API and parsed messages *)

(** An entry of [message["files"]]. *)
Record RawFile := {
  name : option str;
  url_private_download : option str;
  url_private : option str
}.

(** An entry of [_raw_history["messages"]]. *)
Record RawMessage := {
  raw_type : option str;
  raw_subtype : option str;
  raw_user : option str;
  raw_username : option str;
  raw_ts : option str;
  raw_text : option str;
  raw_files : option (list RawFile)
}.

(** An entry of [message_dict["files"]]. *)
Record File := {
  filename : str;
  url_download : option str;
  url : option str
}.

(** [message_dict] *)
Record Message := {
  message_id : nat;
  type : option str;
  subtype : option str;
  text : option str;
  user : str;
  files : list File;
  file_dir : str;
  timestamp_display : str;
  timestamp : str
}.

(** [json.loads(message)] where [message] is a [dict]: [json.loads] takes
    [str], [bytes] or [bytearray] and raises [TypeError] on anything else. *)
Definition json_loads (message : RawMessage) : result str :=
  Raise TypeError.

(** ** [_parse_message] and [_set_messages] *)

Section Parser.

(** [datetime] arithmetic and formatting are the standard library's;
    [epoch_to_datetime] fails when [float(ts)] does. *)
Variable datetime : Type.
Variable epoch_to_datetime : str -> result datetime.
Variable strftime : datetime -> str -> str.

(** The body of [for file in message["files"]]. *)
Definition parse_file (files : list File) (f : RawFile) : list File :=
  let filename_original := name f in
  let filename_modified :=
    match filename_original with
    | Some n => n
    | None => py "Unknown"
    end in
  let filename := unique_filename filename_modified (map filename files) in
  let url_download := url_private_download f in
  let url := url_private f in
  files ++ [ {| filename := filename;
                url_download := url_download;
                url := url |} ].

Definition _parse_message (members : gmap str str) (output_dir : str)
    (message : RawMessage) (message_id : nat) : result Message :=
  let files :=
    match raw_files message with
    | Some fs => fold_left parse_file fs []
    | None => []
    end in
  let subtype := raw_subtype message in
  let raw_user := raw_user message in
  user <-
    (if bool_decide (subtype = Some (py "channel_join")) then
       Ok (py "Slackbot")
     else
       match raw_user with
       | None =>
           if bool_decide (subtype = Some (py "bot_message")) then
             getitem "username" (raw_username message)
           else
             dump <- json_loads message ;;
             Raise (RuntimeError
                      (py "No user for this message:" ++ [10%N] ++ dump))
       | Some raw_user =>
           match members !! raw_user with
           | Some user => Ok user
           | None => Ok raw_user
           end
       end) ;;
  ts <- getitem "ts" (raw_ts message) ;;
  timestamp <- epoch_to_datetime ts ;;
  text <- _normalize_text members (raw_text message) true ;;
  let file_dir :=
    path_join output_dir (py "message_" ++ str_of_nat message_id) in
  Ok {| message_id := message_id;
        type := raw_type message;
        subtype := subtype;
        text := text;
        user := user;
        files := files;
        file_dir := file_dir;
        timestamp_display := strftime timestamp (py "%m/%d/%Y at %I:%M %p");
        timestamp := strftime timestamp (py "%Y-%m-%d %I:%M%p") |}.

(** [for ind, message in enumerate(reversed(messages_raw))] *)
Fixpoint _set_messages_loop (members : gmap str str) (output_dir : str)
    (rest : list RawMessage) (ind : nat) (messages_list : list Message)
    : result (list Message) :=
  match rest with
  | [] => Ok messages_list
  | message :: rest' =>
      message_dict <- _parse_message members output_dir message (ind + 1) ;;
      _set_messages_loop members output_dir rest' (S ind)
        (messages_list ++ [message_dict])
  end.

Definition _set_messages (members : gmap str str) (output_dir : str)
    (messages_raw : list RawMessage) : result (list Message) :=
  _set_messages_loop members output_dir (rev messages_raw) O [].

End Parser.

(** ** [_set_members] *)

(** [user_response.data] of [users.info]. *)
Record Profile := { real_name : option str }.
Record UserData := { data_profile : option Profile; data_name : option str }.
Record UserResponse := { data_user : option UserData }.

(** What the two diagnostic files receive. *)
Inductive log_entry : Type :=
  | LogJson (data : UserResponse)
  | LogError (user : str).

(** The first loop: distinct user identifiers in order of first appearance. *)
Definition collect_users (messages : list RawMessage) : list str :=
  fold_left
    (fun users message =>
       match raw_user message with
       | Some user =>
           if bool_decide (user ∈ users) then users else users ++ [user]
       | None => users
       end)
    messages [].

(** The inner [try]: [profile.real_name], or [name] for a deactivated user. *)
Definition real_name_or_name (user_data : UserData) : result str :=
  profile <- getitem "profile" (data_profile user_data) ;;
  user_name <- getitem "real_name" (real_name profile) ;;
  if bool_decide (user_name = py "Deactivated User")
  then getitem "name" (data_name user_data)
  else Ok user_name.

Section Members.

(** [client.users_info(user=...)]: the response, or the exception raised. *)
Variable users_info : str -> result UserResponse.

(** The outer [try] of one iteration, up to the value stored for [user]. *)
Definition lookup_user_name (user : str) : list log_entry * result str :=
  match users_info user with
  | Raise e => ([], Raise e)
  | Ok user_response =>
      match getitem "user" (data_user user_response) with
      | Raise e => ([], Raise e)
      | Ok user_data =>
          match real_name_or_name user_data with
          | Ok user_name => ([], Ok user_name)
          | Raise (KeyError _) =>
              ([LogJson user_response],
               getitem "name" (data_name user_data))
          | Raise e => ([], Raise e)
          end
      end
  end.

(** One iteration of [for user in users]: only [SlackApiError] is caught. *)
Definition _set_members_step (user_dict : gmap str str) (user : str)
    : list log_entry * result (gmap str str) :=
  match lookup_user_name user with
  | (log, Ok user_name) => (log, Ok (<[user := user_name]> user_dict))
  | (log, Raise (SlackApiError _)) =>
      (log ++ [LogError user], Ok (<[user := user]> user_dict))
  | (log, Raise e) => (log, Raise e)
  end.

Fixpoint _set_members_loop (users : list str) (user_dict : gmap str str)
    : list log_entry * result (gmap str str) :=
  match users with
  | [] => ([], Ok user_dict)
  | user :: users' =>
      match _set_members_step user_dict user with
      | (log, Ok user_dict') =>
          let '(log', r) := _set_members_loop users' user_dict' in
          (log ++ log', r)
      | (log, Raise e) => (log, Raise e)
      end
  end.

Definition _set_members (messages : list RawMessage)
    : list log_entry * result (gmap str str) :=
  let users := collect_users messages in
  _set_members_loop users ∅.

End Members.

(** ** [make_csv] *)

(** An entry of [csv_list]. *)
Record CsvRow := {
  sender : str;
  row_timestamp : str;
  row_text : str;
  row_file : option str
}.

Definition columns : list str :=
  [py "sender"; py "timestamp"; py "text"; py "file"].

(** One iteration of [for message in self.messages].  The local [columns] is
    bound here, inside the loop. *)
Definition make_csv_step (st : option (list str) * list CsvRow)
    (message : Message) : option (list str) * list CsvRow :=
  let csv_list := snd st in
  let user := user message in
  let ts := timestamp message in
  let text := match text message with Some t => t | None => [] end in
  let files := files message in
  (Some columns,
   if (0 <? length files)%nat then
     fold_left
       (fun csv_list file =>
          let url := url file in
          csv_list ++ [ {| sender := user; row_timestamp := ts;
                           row_text := text; row_file := url |} ])
       files csv_list
   else
     csv_list ++ [ {| sender := user; row_timestamp := ts;
                      row_text := text; row_file := Some [] |} ]).

(** [DictWriter.writerow]: the values in the order of [fieldnames]; the
    writer renders [None] as the empty string. *)
Definition writerow (row : CsvRow) : list str :=
  [sender row; row_timestamp row; row_text row; default [] (row_file row)].

(** The codec [utf-8-sig] encodes every code point except the surrogates
    U+D800 to U+DFFF. *)
Definition utf8_encodable (s : str) : bool :=
  forallb (fun c => negb ((55296 <=? c) && (c <=? 57343))%N) s.

(** [csvfile.write(line)] for the line of one row.  The text layer encodes
    the line when it is written: a line that holds a surrogate raises
    [UnicodeEncodeError] and nothing of it reaches the file.  The file is kept
    as the list of its rows, each the list of its fields; the byte order mark
    and the quoting of the dialect are left out. *)
Definition write_line (csvfile : list (list str)) (fields : list str)
    : list (list str) * outcome unit :=
  if forallb utf8_encodable fields
  then (csvfile ++ [fields], Returned tt)
  else (csvfile, RaisedUnicodeEncodeError).

(** [writer.writerows(csv_list)]: row after row, up to the first one that
    raises. *)
Fixpoint writerows (csvfile : list (list str)) (csv_list : list CsvRow)
    : list (list str) * outcome unit :=
  match csv_list with
  | [] => (csvfile, Returned tt)
  | row :: rest =>
      match write_line csvfile (writerow row) with
      | (csvfile', Returned _) => writerows csvfile' rest
      | r => r
      end
  end.

Section Renderer.

(** The file system: [os.path.exists] answers; [os.makedirs] and
    [open(path, 'w')] return or raise. *)
Variable os_path_exists : str -> bool.
Variable os_makedirs : str -> result unit.
Variable open_w : str -> result unit.

(** The rows of the CSV file ([None] when it was not opened) and the outcome:
    the path stored in [self.csv_filepath], or the exception.  The file is
    opened, and so emptied, before [columns] is read; leaving the [with] block
    closes it with the rows written so far. *)
Definition make_csv (output_dir channel_name : str) (messages : list Message)
    : option (list (list str)) * outcome str :=
  match (if os_path_exists output_dir then Ok tt
         else os_makedirs output_dir) with
  | Raise e => (None, Raised e)
  | Ok _ =>
      let filepath_abs := path_join output_dir (channel_name ++ py ".csv") in
      let '(columns, csv_list) := fold_left make_csv_step messages (None, []) in
      match open_w filepath_abs with
      | Raise e => (None, Raised e)
      | Ok _ =>
          match columns with
          | None => (Some [], Raised UnboundLocalError)
          | Some fieldnames =>
              let '(csvfile, r) :=
                match write_line [] fieldnames with
                | (csvfile, Returned _) => writerows csvfile csv_list
                | r => r
                end in
              (Some csvfile,
               match r with
               | Returned _ => Returned filepath_abs
               | Raised e => Raised e
               | RaisedUnicodeEncodeError => RaisedUnicodeEncodeError
               end)
          end
      end
  end.

End Renderer.

(** ** The output directory and [cleanup] *)

Set Warnings "-register-all".

Inductive Node : Type :=
  | FileNode (content : str)
  | DirNode (entries : list (str * Node)).

Definition is_dir (n : Node) : bool :=
  match n with DirNode _ => true | FileNode _ => false end.

(** [os.walk(top)], top-down: a directory, then the walk of each of its
    subdirectories in listing order.  A path is the list of names below the
    walked directory, which itself is [[]]. *)
Fixpoint walk (path : list str) (n : Node)
    : list (list str * list str * list str) :=
  match n with
  | FileNode _ => []
  | DirNode entries =>
      (path,
       map fst (List.filter (fun e => is_dir (snd e)) entries),
       map fst (List.filter (fun e => negb (is_dir (snd e))) entries))
      :: (fix walk_entries (es : list (str * Node)) :=
            match es with
            | [] => []
            | (name, child) :: es' =>
                walk (path ++ [name]) child ++ walk_entries es'
            end) entries
  end.

Fixpoint lookup_entry (name : str) (es : list (str * Node)) : option Node :=
  match es with
  | [] => None
  | (n, child) :: es' =>
      if bool_decide (n = name) then Some child else lookup_entry name es'
  end.

Fixpoint delete_entry (name : str) (es : list (str * Node))
    : list (str * Node) :=
  match es with
  | [] => []
  | (n, child) :: es' =>
      if bool_decide (n = name) then es' else (n, child) :: delete_entry name es'
  end.

Fixpoint replace_entry (name : str) (new : Node) (es : list (str * Node))
    : list (str * Node) :=
  match es with
  | [] => []
  | (n, child) :: es' =>
      if bool_decide (n = name) then (n, new) :: es'
      else (n, child) :: replace_entry name new es'
  end.

(** [shutil.rmtree(path)] with the default [ignore_errors=False]: a path that
    does not exist raises [FileNotFoundError].  ([cleanup] never passes the
    walked directory itself, the path [[]].) *)
Fixpoint rmtree (path : list str) (root : Node) : result Node :=
  match root with
  | FileNode _ => Raise FileNotFoundError
  | DirNode entries =>
      match path with
      | [] => Ok root
      | [name] =>
          match lookup_entry name entries with
          | Some (DirNode _) => Ok (DirNode (delete_entry name entries))
          | Some (FileNode _) => Raise NotADirectoryError
          | None => Raise FileNotFoundError
          end
      | name :: rest =>
          match lookup_entry name entries with
          | Some child =>
              child' <- rmtree rest child ;;
              Ok (DirNode (replace_entry name child' entries))
          | None => Raise FileNotFoundError
          end
      end
  end.

(** [for d in dirs_to_remove: rmtree(d)]: the state of the directory when the
    loop ends or an [rmtree] raises. *)
Fixpoint cleanup_loop (dirs_to_remove : list (list str)) (disk : Node)
    : Node * result unit :=
  match dirs_to_remove with
  | [] => (disk, Ok tt)
  | d :: rest =>
      match rmtree d disk with
      | Ok disk' => cleanup_loop rest disk'
      | Raise e => (disk, Raise e)
      end
  end.

(** [disk] is the tree at [self.output_dir].  The walk is forced by [list]
    before the first [rmtree]; its first component equals [target_dir] only
    for the walked directory itself. *)
Definition cleanup (disk : Node) : Node * result unit :=
  let tree :=
    List.filter (fun item => negb (bool_decide (item.1.1 = [])))
      (walk [] disk) in
  let dirs_to_remove := map (fun d => d.1.1) tree in
  cleanup_loop dirs_to_remove disk.

(** ** [post] *)

(** The attributes of [self] that [post] reads; the two file paths are set by
    [make_csv] and [make_pdf]. *)
Record Archive := {
  channel_id : str;
  channel_name : str;
  output_dir : str;
  csv_filepath : option str;
  pdf_filepath : option str
}.

Inductive client_call : Type :=
  | FilesUpload (channels file title : str)
  | ChatPostMessage (channel text : str).

(** What [post] can touch: the calls sent to the platform, and the disk. *)
Record World := {
  disk : Node;
  sent : list client_call
}.

Definition send (c : client_call) (w : World) : World :=
  {| disk := disk w; sent := sent w ++ [c] |}.

Definition support_message : str :=
  py "An error occurred while uploading the file to this channel. Contact <@U03F805UUDC> for support.".

Section Publisher.

(** The platform client: each call returns or raises. *)
Variable files_upload : str -> str -> str -> result unit.
Variable chat_postMessage : str -> str -> result unit.

(** [self.csv_filepath] or [self.pdf_filepath], by [format.lower()]. *)
Definition artifact_path (self : Archive) (format : str) : result str :=
  if bool_decide (lower format = py "csv") then
    match csv_filepath self with
    | Some fp => Ok fp
    | None => Raise AttributeError
    end
  else if bool_decide (lower format = py "pdf") then
    match pdf_filepath self with
    | Some fp => Ok fp
    | None => Raise AttributeError
    end
  else Raise (RuntimeError (py "format parameter must be 'csv' or 'pdf'.")).

Definition post (self : Archive) (format : str) (w : World)
    : World * result unit :=
  match artifact_path self format with
  | Raise e => (w, Raise e)
  | Ok fp =>
      let title := channel_name self ++ py " " ++ format in
      let w := send (FilesUpload (channel_id self) fp title) w in
      match files_upload (channel_id self) fp title with
      | Ok _ => (w, Ok tt)
      | Raise (URLError reason) =>
          let err_msg := support_message in
          let w := send (ChatPostMessage (channel_id self) err_msg) w in
          match chat_postMessage (channel_id self) err_msg with
          | Ok _ => (w, Raise (URLError reason))
          | Raise e' => (w, Raise e')
          end
      | Raise e => (w, Raise e)
      end
  end.

End Publisher.

(** ** [_get_channel_history] *)

(** [response.data] of [conversations.history]. *)
Record Metadata := { next_cursor : option str }.
Record HistoryPage := {
  page_messages : option (list RawMessage);
  has_more : option bool;
  response_metadata : option Metadata
}.

Section History.

(** [client.conversations_history(channel=channel_id, cursor=...)]; the first
    call has no cursor. *)
Variable conversations_history : option str -> result HistoryPage.

(** The [while] loop: [response] is the page fetched last, [messages] the
    list of [response_parent] that [+=] extends.  [fuel] bounds the number of
    pages; the loop itself runs for as long as the platform reports more. *)
Fixpoint history_loop (fuel : nat) (response : HistoryPage)
    (messages : option (list RawMessage))
    : option (result (option (list RawMessage))) :=
  match fuel with
  | O => None
  | S fuel' =>
      match getitem "has_more" (has_more response) with
      | Raise e => Some (Raise e)
      | Ok false => Some (Ok messages)
      | Ok true =>
          match (metadata <- getitem "response_metadata"
                               (response_metadata response) ;;
                 next <- getitem "next_cursor" (next_cursor metadata) ;;
                 response' <- conversations_history (Some next) ;;
                 parent_messages <- getitem "messages" messages ;;
                 new_messages <- getitem "messages" (page_messages response') ;;
                 Ok (response', parent_messages ++ new_messages)) with
          | Raise e => Some (Raise e)
          | Ok (response', messages') =>
              history_loop fuel' response' (Some messages')
          end
      end
  end.

(** The [except SlackApiError] clause prints and raises the exception again,
    so every exception leaves the function as it came. *)
Definition _get_channel_history (fuel : nat) : option (result HistoryPage) :=
  match conversations_history None with
  | Raise e => Some (Raise e)
  | Ok response_parent =>
      match history_loop fuel response_parent
              (page_messages response_parent) with
      | None => None
      | Some (Raise e) => Some (Raise e)
      | Some (Ok messages) =>
          Some (Ok
            match response_metadata response_parent with
            | Some _ =>
                {| page_messages := messages;
                   has_more := Some false;
                   response_metadata := None |}
            | None =>
                {| page_messages := messages;
                   has_more := has_more response_parent;
                   response_metadata := None |}
            end)
      end
  end.

(** How the platform answers after the page [p]: the pages that follow, and
    how the fetching ends. *)
Inductive continues : HistoryPage -> list HistoryPage -> result unit -> Prop :=
  | continues_stop p :
      has_more p = Some false -> continues p [] (Ok tt)
  | continues_error p metadata next e :
      has_more p = Some true ->
      response_metadata p = Some metadata ->
      next_cursor metadata = Some next ->
      conversations_history (Some next) = Raise e ->
      continues p [] (Raise e)
  | continues_more p metadata next p' ps r :
      has_more p = Some true ->
      response_metadata p = Some metadata ->
      next_cursor metadata = Some next ->
      conversations_history (Some next) = Ok p' ->
      continues p' ps r ->
      continues p (p' :: ps) r.

End History.

(** The messages of a list of pages, in fetch order. *)
Definition pages_messages (pages : list HistoryPage) : list RawMessage :=
  flat_map (fun p => default [] (page_messages p)) pages.

Definition has_messages (p : HistoryPage) : bool :=
  bool_decide (is_Some (page_messages p)).

(** ** Strings of [make_pdf] and [download_files] *)

(** [s.endswith(suffix)], and with a tuple of suffixes. *)
Definition endswith (s suffix : str) : bool :=
  startswith (rev s) (rev suffix).

Definition endswith_any (s : str) (suffixes : list str) : bool :=
  existsb (endswith s) suffixes.

Definition supported_filetypes : list str :=
  [py "jpg"; py "jpeg"; py "png"; py "gif"].

(** How an f-string renders a value that may be [None]. *)
Definition format_value (o : option str) : str :=
  match o with
  | Some s => s
  | None => py "None"
  end.

(** [s.encode('latin-1', 'strict').decode('latin-1', 'strict')]: the string
    itself, or [UnicodeEncodeError] ([None] here) at a code point above
    U+00FF. *)
Definition latin1_strict (s : str) : option str :=
  if forallb (fun c => c <? 256)%N s then Some s else None.

Definition hex_digit (d : N) : N :=
  if (d <? 10)%N then (48 + d)%N else (87 + d)%N.

(** [s.encode('latin-1', 'backslashreplace').decode('latin-1')]: a code point
    above U+00FF becomes [\uxxxx], or [\Uxxxxxxxx] above U+FFFF. *)
Definition backslashreplace_char (c : N) : str :=
  if (c <? 256)%N then [c]
  else if (c <? 65536)%N then
    [92; 117]%N
    ++ map (fun k => hex_digit ((c / 16 ^ k) mod 16)%N) [3; 2; 1; 0]%N
  else
    [92; 85]%N
    ++ map (fun k => hex_digit ((c / 16 ^ k) mod 16)%N)
         [7; 6; 5; 4; 3; 2; 1; 0]%N.

Definition backslashreplace (s : str) : str :=
  flat_map backslashreplace_char s.

(** ** [make_pdf] *)

(** The calls made on the [FPDF] object, without their lengths (inches, as
    floating-point numbers).  [Ln true] is the half line break. *)
Inductive pdf_call : Type :=
  | NewDocument
  | AddPage
  | SetMargins
  | SetFont (style : str)
  | SetDrawColor
  | SetLineWidth
  | Cell (txt : str) (link : option str)
  | MultiCell (txt : str)
  | Image (path : str)
  | Ln (half : bool)
  | Line
  | SetTextColor (blue : bool)
  | Output (path : str).

(** A step of [make_pdf]: from the calls made so far to the calls made and
    the outcome. *)
Definition pdf_step (A : Type) : Type :=
  list pdf_call -> list pdf_call * outcome A.

Definition pdf_ret {A} (a : A) : pdf_step A := fun calls => (calls, Returned a).

Definition pdf_bind {A B} (m : pdf_step A) (k : A -> pdf_step B) : pdf_step B :=
  fun calls =>
    match m calls with
    | (calls', Returned a) => k a calls'
    | (calls', Raised e) => (calls', Raised e)
    | (calls', RaisedUnicodeEncodeError) => (calls', RaisedUnicodeEncodeError)
    end.

Notation "m >> k" := (pdf_bind m (fun _ => k))
  (at level 100, k at level 200, right associativity).

(** [try: body  except RuntimeError: handler] *)
Definition pdf_try {A} (body handler : pdf_step A) : pdf_step A :=
  fun calls =>
    match body calls with
    | (calls', Raised (RuntimeError _)) => handler calls'
    | r => r
    end.

Fixpoint pdf_for {A} (body : A -> pdf_step unit) (l : list A) : pdf_step unit :=
  match l with
  | [] => pdf_ret tt
  | a :: l' => body a >> pdf_for body l'
  end.

Section Document.

(** The library: whether a call returns or raises, given the calls made
    before it. *)
Variable fpdf : list pdf_call -> pdf_call -> result unit.

Definition pdf (c : pdf_call) : pdf_step unit :=
  fun calls =>
    (calls ++ [c],
     match fpdf calls c with
     | Ok _ => Returned tt
     | Raise e => Raised e
     end).

Definition _put_link (text : str) (url : option str) : pdf_step unit :=
  pdf (SetTextColor true) >> pdf (Cell text url) >> pdf (SetTextColor false).

(** The body of [for file in message["files"]]. *)
Definition make_pdf_file (members : gmap str str) (file_dir : str)
    (file : File) : pdf_step unit :=
  match _normalize_text members (Some (filename file)) false with
  | Raise e => fun calls => (calls, Raised e)
  | Ok filename =>
      let filepath := file_dir ++ py "/" ++ format_value filename in
      let url := url file in
      if endswith_any (lower filepath) supported_filetypes then
        pdf_try (pdf (Image filepath) >> pdf (Ln false))
          (_put_link (py "File: " ++ format_value filename) url)
      else _put_link (py "File: " ++ format_value filename) url
  end.

(** The body of [for message in self.messages]. *)
Definition make_pdf_message (members : gmap str str) (message : Message)
    : pdf_step unit :=
  let user := user message in
  let ts := timestamp_display message in
  let file_dir := file_dir message in
  let message_header :=
    if bool_decide (subtype message = Some (py "channel_join")) then ts
    else user ++ py " on " ++ ts in
  pdf (Cell message_header None) >>
  match text message with
  | None => fun calls => (calls, Raised TypeError)
  | Some text =>
      if (0 <? length text)%nat
      then pdf (MultiCell (backslashreplace text))
      else pdf_ret tt
  end >>
  (if (0 <? length (files message))%nat
   then pdf_for (make_pdf_file members file_dir) (files message)
   else pdf_ret tt) >>
  pdf (Ln true) >> pdf Line >> pdf (Ln true).

(** The calls made, and the path stored in [self.pdf_filepath] or the
    exception. *)
Definition make_pdf (members : gmap str str)
    (output_dir channel_name timestamp : str) (messages : list Message)
    : list pdf_call * outcome str :=
  let filepath_abs := path_join output_dir (channel_name ++ py ".pdf") in
  (pdf NewDocument >> pdf AddPage >> pdf SetMargins >> pdf (SetFont []) >>
   pdf SetDrawColor >> pdf SetLineWidth >> pdf (SetFont (py "B")) >>
   match latin1_strict (channel_name ++ py " Channel Archive") with
   | None => fun calls => (calls, RaisedUnicodeEncodeError)
   | Some title => pdf (Cell title None)
   end >>
   pdf (SetFont []) >>
   pdf (Cell (py "Exported on " ++ timestamp) None) >>
   pdf (Ln false) >>
   pdf_for (make_pdf_message members) messages >>
   pdf (Output filepath_abs) >>
   pdf_ret filepath_abs) [].

End Document.

(** ** [download_files] *)

(** What [download_files] does to the outside: it asks whether a path
    exists, makes a directory, requests a URL, writes a file. *)
Inductive io_call : Type :=
  | PathExists (path : str)
  | Makedirs (path : str)
  | RequestsGet (url : str)
  | WriteFile (path content : str).

Definition io_step (A : Type) : Type :=
  list io_call -> list io_call * result A.

Definition io_ret {A} (a : A) : io_step A := fun calls => (calls, Ok a).

Definition io_bind {A B} (m : io_step A) (k : A -> io_step B) : io_step B :=
  fun calls =>
    match m calls with
    | (calls', Ok a) => k a calls'
    | (calls', Raise e) => (calls', Raise e)
    end.

Fixpoint io_for {A} (body : A -> io_step unit) (l : list A) : io_step unit :=
  match l with
  | [] => io_ret tt
  | a :: l' => io_bind (body a) (fun _ => io_for body l')
  end.

Section Downloader.

(** The file system and the network: the answer to a call, given the calls
    made before it.  [requests.get] returns a response (its content) or,
    as the code allows for, [None]. *)
Variable os_path_exists : list io_call -> str -> result bool.
Variable os_makedirs : list io_call -> str -> result unit.
Variable requests_get : list io_call -> str -> result (option str).
Variable write_file : list io_call -> str -> str -> result unit.

Definition io {A} (c : io_call) (answer : list io_call -> result A)
    : io_step A :=
  fun calls => (calls ++ [c], answer calls).

(** The body of [for file in files_to_download]. *)
Definition download_file (file_dir : str) (file : File) : io_step unit :=
  let filepath := file_dir ++ py "/" ++ filename file in
  let url := url_download file in
  match url with
  | Some url =>
      io_bind (io (RequestsGet url) (fun calls => requests_get calls url))
        (fun response =>
           match response with
           | Some content =>
               io (WriteFile filepath content)
                 (fun calls => write_file calls filepath content)
           | None => io_ret tt
           end)
  | None => io_ret tt
  end.

(** The body of [for message in self.messages]. *)
Definition download_message (message : Message) : io_step unit :=
  let files := files message in
  if (0 <? length files)%nat then
    let files_to_download :=
      List.filter
        (fun f => endswith_any (lower (filename f)) supported_filetypes)
        files in
    if (0 <? length files_to_download)%nat then
      let file_dir := file_dir message in
      io_bind (io (PathExists file_dir)
                 (fun calls => os_path_exists calls file_dir))
        (fun present =>
           io_bind (if negb present
                    then io (Makedirs file_dir)
                           (fun calls => os_makedirs calls file_dir)
                    else io_ret tt)
             (fun _ => io_for (download_file file_dir) files_to_download))
    else io_ret tt
  else io_ret tt.

Definition download_files (messages : list Message)
    : list io_call * result unit :=
  io_for download_message messages [].

End Downloader.

(** ** Definitions used to state the properties *)

(** The name tried after [n] collisions: the original one, then the stem
    followed by [" (n)"] and the extension. *)
Definition candidate (stem ext : str) (n : nat) : str :=
  match n with
  | O => stem ++ ext
  | S _ => stem ++ py " (" ++ str_of_nat n ++ py ")" ++ ext
  end.

(** [sub in s] *)
Fixpoint contains (s sub : str) : bool :=
  startswith s sub
  || match s with
     | [] => false
     | _ :: s' => contains s' sub
     end.

(** [sep.join(pieces)] *)
Fixpoint join (sep : str) (pieces : list str) : str :=
  match pieces with
  | [] => []
  | p :: ps =>
      match ps with
      | [] => p
      | _ :: _ => p ++ sep ++ join sep ps
      end
  end.

(** The text after the two special characters are decoded. *)
Definition decode (text : str) : str :=
  str_replace (str_replace text [8217%N] (py "'")) [8230%N] (py "...").

(** What one code point becomes under [decode]. *)
Definition decode_char (c : N) : str :=
  if N.eqb c 8217 then py "'" else if N.eqb c 8230 then py "..." else [c].

(** The name put in place of the mention token [tok]: the entry of the
    identity map for the identifier inside it, or the identifier itself. *)
Definition mention_name (members : gmap str str) (tok : str) : str :=
  default (slice_2_m1 tok) (members !! slice_2_m1 tok).

(** The code points of a mention token: ['<'], ['@'], ['>'] and the class
    of the pattern. *)
Definition mention_char (c : N) : bool :=
  (alnum c || N.eqb c 60 || N.eqb c 64 || N.eqb c 62)%N.

(** The order of precedence in the words of the specification: the explicit
    bot username, then the identity-map entry for the user identifier, then
    the raw identifier, and last the system name of a channel join. *)
Definition sender_by_priority (members : gmap str str) (message : RawMessage)
    : option str :=
  match raw_username message with
  | Some bot => Some bot
  | None =>
      match raw_user message with
      | Some u => Some (default u (members !! u))
      | None =>
          if bool_decide (raw_subtype message = Some (py "channel_join"))
          then Some (py "Slackbot")
          else None
      end
  end.

(** A clock for the examples: the datetime is the epoch string, and
    formatting keeps it and names the format. *)
Definition epoch_string (ts : str) : result str := Ok ts.
Definition epoch_strftime (d format : str) : str := d ++ py " as " ++ format.

(** Records for the examples: a channel join, a message with two attachments
    of the same name, and a record without user and subtype. *)
Definition join_record : RawMessage :=
  {| raw_type := Some (py "message");
     raw_subtype := Some (py "channel_join");
     raw_user := Some (py "U1");
     raw_username := None;
     raw_ts := Some (py "1600000000.000100");
     raw_text := Some (py "<@U1> has joined the channel");
     raw_files := None |}.

Definition files_record : RawMessage :=
  {| raw_type := Some (py "message");
     raw_subtype := None;
     raw_user := Some (py "U2");
     raw_username := None;
     raw_ts := Some (py "1600000100.000200");
     raw_text := Some (py "two pictures");
     raw_files :=
       Some [ {| name := Some (py "a.png");
                 url_private_download := Some (py "https://files/d/1");
                 url_private := Some (py "https://files/1") |};
              {| name := Some (py "a.png");
                 url_private_download := Some (py "https://files/d/2");
                 url_private := Some (py "https://files/2") |} ] |}.

Definition orphan_record : RawMessage :=
  {| raw_type := Some (py "message");
     raw_subtype := None;
     raw_user := None;
     raw_username := None;
     raw_ts := Some (py "1600000200.000300");
     raw_text := Some (py "hi");
     raw_files := None |}.

Definition example_members : gmap str str :=
  {[ py "U1" := py "Jane Doe" ]}.


(** A file system on which the output directory exists and every file can be
    opened. *)
Definition dir_exists (path : str) : bool := true.
Definition makedirs_ok (path : str) : result unit := Ok tt.
Definition open_ok (path : str) : result unit := Ok tt.




(** A record has a sender when it is a channel join, carries a user
    identifier, or is a bot message with a username. *)
Definition has_sender (message : RawMessage) : bool :=
  bool_decide (raw_subtype message = Some (py "channel_join"))
  || match raw_user message with
     | Some _ => true
     | None =>
         bool_decide (raw_subtype message = Some (py "bot_message"))
         && match raw_username message with
            | Some _ => true
            | None => false
            end
     end.

(** A record that has what the parser reads: a sender, a [ts] that the clock
    converts, and a text. *)
Definition parseable {datetime : Type}
    (epoch_to_datetime : str -> result datetime) (message : RawMessage)
    : bool :=
  has_sender message
  && match raw_ts message with
     | Some ts =>
         match epoch_to_datetime ts with
         | Ok _ => true
         | Raise _ => false
         end
     | None => false
     end
  && match raw_text message with
     | Some _ => true
     | None => false
     end.

(** The mention token around the identifier [run]: ["<@"], [run], [">"]. *)
Definition mention_token (run : str) : str :=
  60%N :: 64%N :: run ++ [62%N].


(** A platform for the examples: an active account, a deactivated one, an
    account without real name, and no other. *)
Definition example_users_info (user : str) : result UserResponse :=
  let account real short :=
    Ok {| data_user :=
            Some {| data_profile := Some {| real_name := real |};
                    data_name := Some short |} |} in
  if bool_decide (user = py "U1") then
    account (Some (py "Jane Doe")) (py "jane")
  else if bool_decide (user = py "U2") then
    account (Some (py "Deactivated User")) (py "bob")
  else if bool_decide (user = py "U3") then
    account None (py "carl")
  else Raise (SlackApiError (py "user_not_found")).

Definition record_of (user : option str) : RawMessage :=
  {| raw_type := Some (py "message"); raw_subtype := None;
     raw_user := user; raw_username := None;
     raw_ts := Some (py "1600000300.000400");
     raw_text := Some (py "hello"); raw_files := None |}.

Definition example_history : list RawMessage :=
  [ record_of (Some (py "U1")); record_of (Some (py "U2"));
    record_of None; record_of (Some (py "U1"));
    record_of (Some (py "U4")); record_of (Some (py "U3")) ].

(** An archive whose CSV has been rendered, and its output directory. *)
Definition example_archive : Archive :=
  {| channel_id := py "C024BE91L";
     channel_name := py "general";
     output_dir := py "/srv/General Archive";
     csv_filepath := Some (py "/srv/General Archive/general.csv");
     pdf_filepath := None |}.

Definition example_world : World :=
  {| disk := DirNode [ (py "general.csv", FileNode (py "sender,timestamp,text,file")) ];
     sent := [] |}.

(** An output directory after a run: the CSV, and two staging directories,
    one of which holds a directory of its own. *)
Definition nested_disk : Node :=
  DirNode
    [ (py "general.csv", FileNode (py "sender,timestamp,text,file"));
      (py "message_1",
       DirNode [ (py "a.png", FileNode (py "PNG1"));
                 (py "thumbs", DirNode [ (py "a_small.png", FileNode (py "PNG2")) ]) ]);
      (py "message_2", DirNode [ (py "b.png", FileNode (py "PNG3")) ]) ].

(** An output directory whose subdirectories hold files only, as
    [download_files] leaves it. *)
Definition staged_disk : Node :=
  DirNode
    [ (py "general.csv", FileNode (py "sender,timestamp,text,file"));
      (py "message_1", DirNode [ (py "a.png", FileNode (py "PNG1")) ]);
      (py "general.pdf", FileNode (py "%PDF"));
      (py "message_2", DirNode [ (py "b.png", FileNode (py "PNG3")) ]) ].

Definition not_dir (e : str * Node) : bool := negb (is_dir e.2).

(** Every subdirectory holds files only. *)
Definition flat (entries : list (str * Node)) : bool :=
  forallb
    (fun e =>
       match e.2 with
       | DirNode sub => forallb not_dir sub
       | FileNode _ => true
       end)
    entries.

(** Records that lack a key: a bot message without [username], a message
    without [ts], a message without [text]. *)
Definition bot_record : RawMessage :=
  {| raw_type := Some (py "message");
     raw_subtype := Some (py "bot_message");
     raw_user := None; raw_username := None;
     raw_ts := Some (py "1600000400.000500");
     raw_text := Some (py "build passed"); raw_files := None |}.

Definition no_ts_record : RawMessage :=
  {| raw_type := Some (py "message"); raw_subtype := None;
     raw_user := Some (py "U2"); raw_username := None;
     raw_ts := None; raw_text := Some (py "hello"); raw_files := None |}.

Definition no_text_record : RawMessage :=
  {| raw_type := Some (py "message"); raw_subtype := None;
     raw_user := Some (py "U2"); raw_username := None;
     raw_ts := Some (py "1600000400.000500");
     raw_text := None; raw_files := None |}.

(** The identifiers written to the error log, in order. *)
Definition logged_errors (log : list log_entry) : list str :=
  flat_map (fun entry =>
              match entry with
              | LogError user => [user]
              | LogJson _ => []
              end) log.

Definition is_api_error {A} (r : result A) : bool :=
  match r with
  | Raise (SlackApiError _) => true
  | _ => false
  end.

(** Neither of the two special characters. *)
Definition not_special (c : N) : bool :=
  negb (N.eqb c 8217) && negb (N.eqb c 8230).

(** A platform with two pages of history, and one that fails on the second
    page. *)
Definition first_page : HistoryPage :=
  {| page_messages := Some [files_record];
     has_more := Some true;
     response_metadata := Some {| next_cursor := Some (py "bmV4dDox") |} |}.

Definition last_page : HistoryPage :=
  {| page_messages := Some [join_record];
     has_more := Some false;
     response_metadata := Some {| next_cursor := Some [] |} |}.

Definition two_pages (cursor : option str) : result HistoryPage :=
  match cursor with
  | None => Ok first_page
  | Some c =>
      if bool_decide (c = py "bmV4dDox") then Ok last_page
      else Raise (SlackApiError (py "invalid_cursor"))
  end.

Definition second_page_fails (cursor : option str) : result HistoryPage :=
  match cursor with
  | None => Ok first_page
  | Some _ => Raise (SlackApiError (py "ratelimited"))
  end.

Definition is_image (c : pdf_call) : bool :=
  match c with
  | Image _ => true
  | _ => false
  end.





(** A step that calls no [Image]. *)
Definition image_free {A} (m : pdf_step A) : Prop :=
  forall calls,
    forallb (fun c => negb (is_image c)) calls = true ->
    forallb (fun c => negb (is_image c)) (m calls).1 = true.

(** The URLs requested, in order. *)
Definition requested (calls : list io_call) : list str :=
  flat_map (fun c => match c with RequestsGet url => [url] | _ => [] end)
    calls.

(** The download URLs of the attachments of a message whose lower-cased file
    name ends in one of the image extensions. *)
Definition image_urls (m : Message) : list str :=
  flat_map (fun f => match url_download f with Some u => [u] | None => [] end)
    (List.filter
       (fun f => endswith_any (lower (filename f)) supported_filetypes)
       (files m)).

(** A step requests a prefix of [urls], and all of them when it returns. *)
Definition requests {A} (m : io_step A) (urls : list str) : Prop :=
  forall calls,
    exists done,
      requested (m calls).1 = requested calls ++ done
      /\ done `prefix_of` urls
      /\ (forall a, (m calls).2 = Ok a -> done = urls).

(** The paths written, in order. *)
Definition written (calls : list io_call) : list str :=
  flat_map (fun c => match c with WriteFile path _ => [path] | _ => [] end)
    calls.

(** Where the image attachments of a message are staged. *)
Definition image_paths (m : Message) : list str :=
  map (fun f => file_dir m ++ py "/" ++ filename f)
    (List.filter
       (fun f => endswith_any (lower (filename f)) supported_filetypes)
       (files m)).

(** A step writes some of [paths], in their order, and nothing else. *)
Definition writes {A} (m : io_step A) (paths : list str) : Prop :=
  forall calls,
    exists done,
      written (m calls).1 = written calls ++ done
      /\ done `sublist_of` paths.

(** * Properties *)

Local Close Scope Z_scope.

Arguments py : simpl never.
Arguments str_of_nat : simpl never.

(** ** Strings *)

Lemma uint_digits_inj (d d' : uint) : uint_digits d = uint_digits d' -> d = d'.
Proof.
  revert d'; induction d; intros d' H; destruct d'; simpl in H;
    try discriminate; try reflexivity;
    injection H as H; f_equal; auto.
Qed.

Lemma str_of_nat_inj (n m : nat) : str_of_nat n = str_of_nat m -> n = m.
Proof.
  unfold str_of_nat. intros H.
  apply DecimalNat.Unsigned.to_uint_inj, uint_digits_inj, H.
Qed.

(** ** [splitext] *)

Lemma skip_leading_dots_join p extsep dotIndex n i root ext :
  skip_leading_dots p extsep dotIndex n i = Some (root, ext) -> root ++ ext = p.
Proof.
  revert i; induction n as [|n IH]; intros i; simpl; [discriminate|].
  case_bool_decide; [apply IH|].
  intros [= <- <-]. apply take_drop.
Qed.

Lemma _splitext_join p sep altsep extsep :
  (_splitext p sep altsep extsep).1 ++ (_splitext p sep altsep extsep).2 = p.
Proof.
  unfold _splitext.
  destruct (Z.ltb _ _); [|apply app_nil_r].
  destruct (skip_leading_dots _ _ _ _ _) as [[root ext]|] eqn:E;
    [|apply app_nil_r].
  simpl. eapply skip_leading_dots_join, E.
Qed.

Lemma splitext_join p : (splitext p).1 ++ (splitext p).2 = p.
Proof. apply _splitext_join. Qed.

(** ** [unique_filename] *)

Lemma candidate_inj stem ext : Inj (=) (=) (candidate stem ext).
Proof.
  assert (Hne : forall k, candidate stem ext 0 <> candidate stem ext (S k)).
  { intros k H. unfold candidate in H.
    apply app_inv_head in H. apply (f_equal length) in H.
    rewrite !length_app in H. simpl in H. lia. }
  intros [|n] [|m] H; [reflexivity|by apply Hne in H|symmetry in H; by apply Hne in H|].
  unfold candidate in H.
  apply app_inv_head, app_inv_head in H.
  rewrite !(assoc_L (++)) in H.
  apply app_inv_tail, app_inv_tail in H.
  by apply str_of_nat_inj.
Qed.

(** If the first [c] candidates are all taken, the list has [c] entries. *)
Lemma candidates_taken_length stem ext (file_list : list str) c :
  (forall k, k < c -> candidate stem ext k ∈ file_list) -> c <= length file_list.
Proof.
  intros Hin.
  assert (Hsub : candidate stem ext <$> seq 0 c ⊆+ file_list).
  { apply NoDup_submseteq.
    - apply (NoDup_fmap_2 _ (Inj0 := candidate_inj stem ext)), NoDup_seq.
    - intros x [k [-> Hk]]%list_elem_of_fmap.
      apply elem_of_seq in Hk. apply Hin. lia. }
  apply submseteq_length in Hsub.
  by rewrite length_fmap, length_seq in Hsub.
Qed.

Lemma unique_filename_loop_spec stem ext (file_list : list str) fuel :
  forall c filename,
    filename ++ ext = candidate stem ext c ->
    (forall k, k < c -> candidate stem ext k ∈ file_list) ->
    length file_list < c + fuel ->
    exists n,
      unique_filename_loop fuel stem ext file_list filename (S c)
        = Some (candidate stem ext n)
      /\ (candidate stem ext n ∉ file_list)
      /\ Forall (fun k => candidate stem ext k ∈ file_list) (seq 0 n).
Proof.
  induction fuel as [|fuel IH]; intros c filename Hname Hin Hlen.
  - apply candidates_taken_length in Hin. lia.
  - cbn [unique_filename_loop]. rewrite Hname. case_bool_decide as Hc.
    + apply IH.
      * unfold candidate. by rewrite <- !(assoc_L (++)).
      * intros k Hk. destruct (decide (k = c)) as [->|]; [done|].
        apply Hin. lia.
      * lia.
    + exists c. split_and!; [done|done|].
      apply Forall_forall. intros k Hk%elem_of_seq. apply Hin. lia.
Qed.

(** The fuel given by [unique_filename] is enough, for every input. *)
Lemma unique_filename_fuel_enough orig_filename (file_list : list str) :
  exists n,
    unique_filename_fuel (S (length file_list)) orig_filename file_list
      = Some (candidate (splitext orig_filename).1 (splitext orig_filename).2 n)
    /\ (candidate (splitext orig_filename).1 (splitext orig_filename).2 n
         ∉ file_list)
    /\ Forall (fun k => candidate (splitext orig_filename).1
                          (splitext orig_filename).2 k ∈ file_list) (seq 0 n).
Proof.
  unfold unique_filename_fuel.
  destruct (splitext orig_filename) as [stem ext]; cbn [fst snd].
  apply unique_filename_loop_spec; [done|intros; lia|lia].
Qed.

Example splitext_png : splitext (py "a.png") = (py "a", py ".png").
Proof. reflexivity. Qed.

Example splitext_hidden :
  splitext (py "dir.d/.bashrc") = (py "dir.d/.bashrc", []).
Proof. reflexivity. Qed.

Example splitext_last_dot : splitext (py "x.tar.gz") = (py "x.tar", py ".gz").
Proof. reflexivity. Qed.

Example unique_filename_free :
  unique_filename (py "a.png") [py "b.png"] = py "a.png".
Proof. reflexivity. Qed.

Example unique_filename_no_ext :
  unique_filename (py "Unknown") [py "Unknown"; py "Unknown (1)"]
  = py "Unknown (2)".
Proof. reflexivity. Qed.

(** C4.  For every desired filename and every list of names already used,
    [unique_filename] returns a name that is not in the list.  The name is the
    candidate number [n] for the least [n] whose candidate is free: candidate
    0 is the desired filename itself, and candidate [n >= 1] has [" (n)"]
    between the stem and the extension that [splitext] gives; the candidates
    0, ..., n-1 are all in the list.  The loop needs no more than one
    iteration per used name and one more.  For ["a.png"] against
    ["a.png", "a (1).png"] the result is ["a (2).png"]. *)
Theorem unique_filename_distinct (orig_filename : str) (file_list : list str) :
  exists n,
    unique_filename orig_filename file_list
      = candidate (splitext orig_filename).1 (splitext orig_filename).2 n
    /\ (unique_filename orig_filename file_list ∉ file_list)
    /\ Forall (fun k => candidate (splitext orig_filename).1
                          (splitext orig_filename).2 k ∈ file_list) (seq 0 n)
    /\ candidate (splitext orig_filename).1 (splitext orig_filename).2 0
       = orig_filename
    /\ unique_filename_fuel (S (length file_list)) orig_filename file_list
       = Some (unique_filename orig_filename file_list)
    /\ unique_filename (py "a.png") [py "a.png"; py "a (1).png"]
       = py "a (2).png".
Proof.
  destruct (unique_filename_fuel_enough orig_filename file_list)
    as (n & Hrun & Hfree & Htaken).
  exists n. unfold unique_filename. rewrite Hrun. cbn [default].
  split_and!; try done.
  apply splitext_join.
Qed.

(** ** [str.replace] *)

Lemma startswith_prefix s p : startswith s p = true <-> p `prefix_of` s.
Proof.
  revert s; induction p as [|a p IH]; intros s.
  - destruct s; simpl; split; auto using prefix_nil.
  - destruct s as [|b s]; simpl.
    + split; [done|]. by intros H%prefix_nil_not.
    + destruct (N.eqb_spec a b) as [->|Hab].
      * rewrite IH. split; [apply prefix_cons|apply prefix_cons_inv_2].
      * split; [done|]. by intros H%prefix_cons_inv_1.
Qed.

Lemma contains_spec s sub :
  contains s sub = true <-> exists pre suf, s = pre ++ sub ++ suf.
Proof.
  induction s as [|c s IH]; cbn [contains].
  - rewrite orb_false_r, startswith_prefix. split.
    + intros [k ->]. by exists [], k.
    + intros (pre & suf & H). destruct pre; [|done]. by exists suf.
  - rewrite orb_true_iff, startswith_prefix, IH. split.
    + intros [[k ->]|(pre & suf & ->)]; [by exists [], k|by exists (c :: pre), suf].
    + intros (pre & suf & H). destruct pre as [|c' pre].
      * left. exists suf. done.
      * right. injection H as -> ->. by exists pre, suf.
Qed.

Lemma replace_from_skip old new a s :
  replace_from old new (length a) (a ++ s) = replace_from old new 0 s.
Proof. induction a as [|c a IH]; [done|]. simpl. apply IH. Qed.

Lemma replace_from_occurrence old new rest :
  old <> [] ->
  replace_from old new 0 (old ++ rest) = new ++ replace_from old new 0 rest.
Proof.
  destruct old as [|h t]; [done|]. intros _.
  change ((h :: t) ++ rest) with (h :: (t ++ rest)).
  cbn [replace_from].
  assert (startswith (h :: t ++ rest) (h :: t) = true) as ->.
  { apply startswith_prefix. by exists rest. }
  cbn [length Nat.pred]. by rewrite replace_from_skip.
Qed.

(** Where no occurrence of [old] starts, the text is copied. *)
Lemma replace_from_clean old new p rest :
  (forall a b, p = a ++ b -> b <> [] -> ~ old `prefix_of` (b ++ rest)) ->
  replace_from old new 0 (p ++ rest) = p ++ replace_from old new 0 rest.
Proof.
  induction p as [|c p IH]; intros Hfree; [done|].
  change ((c :: p) ++ rest) with (c :: (p ++ rest)).
  cbn [replace_from].
  destruct (startswith (c :: p ++ rest) old) eqn:E.
  - apply startswith_prefix in E. by apply (Hfree [] (c :: p)) in E.
  - cbn [app]. f_equal. apply IH. intros a b -> Hb.
    by apply (Hfree (c :: a) b).
Qed.

(** A token whose first code point does not occur again in it cannot overlap
    a copy of itself: in [p ++ tok ++ rest], with [p] free of [tok], no
    occurrence starts inside [p]. *)
Lemma no_occurrence_before h t p rest :
  h ∉ t -> contains p (h :: t) = false ->
  forall a b, p = a ++ b -> b <> [] ->
    ~ (h :: t) `prefix_of` (b ++ (h :: t) ++ rest).
Proof.
  intros Hh Hp a b -> Hb [k Hk].
  apply not_true_iff_false in Hp. apply Hp, contains_spec.
  apply app_eq_inv in Hk as [(k' & -> & _)|(k' & Htok & Hrest)].
  - by exists a, k'.
  - destruct b as [|x b]; [done|]. injection Htok as <- ->.
    destruct k' as [|y k'].
    + exists a, []. by rewrite !app_nil_r.
    + injection Hrest as -> _. exfalso. apply Hh. set_solver.
Qed.

Lemma replace_from_free old new p :
  contains p old = false -> replace_from old new 0 p = p.
Proof.
  intros Hp. rewrite <- (app_nil_r p) at 1.
  rewrite replace_from_clean; [apply app_nil_r|].
  intros a b -> Hb [k Hk]. rewrite app_nil_r in Hk.
  apply not_true_iff_false in Hp. apply Hp, contains_spec.
  exists a, k. by rewrite Hk.
Qed.

Lemma join_cons sep p p' ps :
  join sep (p :: p' :: ps) = p ++ sep ++ join sep (p' :: ps).
Proof. reflexivity. Qed.

(** [s.replace(tok, new)] on a text cut at its occurrences of [tok]. *)
Lemma str_replace_join h t new pieces :
  h ∉ t ->
  forallb (fun p => negb (contains p (h :: t))) pieces = true ->
  str_replace (join (h :: t) pieces) (h :: t) new = join new pieces.
Proof.
  intros Hh. unfold str_replace.
  induction pieces as [|p ps IH]; [done|].
  cbn [forallb]. rewrite andb_true_iff, negb_true_iff. intros [Hp Hps].
  destruct ps as [|p' ps].
  - by apply replace_from_free.
  - rewrite !join_cons.
    rewrite replace_from_clean by by apply no_occurrence_before.
    rewrite replace_from_occurrence by done.
    by rewrite (IH Hps).
Qed.

(** ** The mention pattern *)

Lemma match_here_star cls rest s :
  match_here (StarClass cls :: rest) s
  = match s with
    | x :: s' =>
        if cls x then
          match match_here (StarClass cls :: rest) s' with
          | Some n => Some (S n)
          | None => match_here rest s
          end
        else match_here rest s
    | [] => match_here rest []
    end.
Proof. by destruct s. Qed.

Lemma match_here_lit_cons c rest s :
  match_here (Lit c :: rest) s
  = match s with
    | x :: s' => if N.eqb x c then S <$> match_here rest s' else None
    | [] => None
    end.
Proof. reflexivity. Qed.

Lemma match_here_lit c s n :
  match_here [Lit c] s = Some n -> exists rest, s = c :: rest /\ n = 1.
Proof.
  destruct s as [|x s]; simpl; [done|].
  destruct (N.eqb_spec x c) as [->|]; [|done].
  intros [= <-]. by exists s.
Qed.

(** A starred class followed by a literal outside the class: the match is
    the whole run of the class and the literal after it. *)
Lemma match_here_star_lit cls c s n :
  cls c = false ->
  match_here [StarClass cls; Lit c] s = Some n ->
  exists run rest,
    s = run ++ c :: rest /\ forallb cls run = true /\ n = S (length run).
Proof.
  intros Hc. revert n; induction s as [|x s IH]; intros n;
    rewrite match_here_star.
  - intros (rest & ? & _)%match_here_lit. done.
  - destruct (cls x) eqn:Hx.
    + destruct (match_here [StarClass cls; Lit c] s) as [m|] eqn:E.
      * intros [= <-]. destruct (IH m eq_refl) as (run & rest & -> & Hrun & ->).
        exists (x :: run), rest. simpl. by rewrite Hx, Hrun.
      * intros (rest & [= -> _] & _)%match_here_lit. congruence.
    + intros (rest & [= -> ->] & ->)%match_here_lit. by exists [], rest.
Qed.

Lemma match_here_pattern s n :
  match_here pattern s = Some n ->
  exists run rest,
    s = 60%N :: 64%N :: run ++ 62%N :: rest
    /\ forallb alnum run = true /\ n = S (S (S (length run))).
Proof.
  unfold pattern. rewrite match_here_lit_cons.
  destruct s as [|a s]; [done|].
  destruct (N.eqb_spec a 60) as [->|]; [|done].
  rewrite match_here_lit_cons.
  destruct s as [|b s]; [done|].
  - destruct (N.eqb_spec b 64) as [->|]; [|done].
    destruct (match_here [StarClass alnum; Lit 62%N] s) as [m|] eqn:E; [|done].
    intros [= <-].
    apply match_here_star_lit in E as (run & rest & -> & Hrun & ->); [|done].
    by exists run, rest.
Qed.

(** What [re.search] returns is a mention token that occurs in the text. *)
Lemma re_search_pattern s tok :
  re_search pattern s = Some tok ->
  exists run,
    tok = 60%N :: 64%N :: run ++ [62%N]
    /\ forallb alnum run = true /\ contains s tok = true.
Proof.
  induction s as [|c s IH]; cbn [re_search].
  - destruct (match_here pattern []) as [n|] eqn:E; [|done].
    apply match_here_pattern in E as (? & ? & ? & _). done.
  - destruct (match_here pattern (c :: s)) as [n|] eqn:E.
    + intros [= <-].
      apply match_here_pattern in E as (run & rest & -> & Hrun & ->).
      assert (Hs : 60%N :: 64%N :: run ++ 62%N :: rest
                   = (60%N :: 64%N :: run ++ [62%N]) ++ rest).
      { simpl. by rewrite <- (assoc_L (++)). }
      rewrite Hs.
      rewrite take_app_length' by (simpl; rewrite length_app; simpl; lia).
      exists run. split_and!; [done..|].
      apply contains_spec. by exists [], rest.
    + intros (run & -> & Hrun & Hin)%IH. exists run. split_and!; [done..|].
      cbn [contains]. by rewrite Hin, orb_true_r.
Qed.

(** ** Decoding of the special characters *)

Lemma startswith_nil s : startswith s [] = true.
Proof. by destruct s. Qed.

Lemma str_replace_char s a new :
  str_replace s [a] new = flat_map (fun c => if N.eqb c a then new else [c]) s.
Proof.
  unfold str_replace. induction s as [|c s IH]; [done|].
  cbn [replace_from flat_map startswith length Nat.pred].
  rewrite startswith_nil, (N.eqb_sym a c), IH.
  by destruct (N.eqb c a).
Qed.

Lemma decode_flat_map text : decode text = flat_map decode_char text.
Proof.
  unfold decode. rewrite !str_replace_char.
  induction text as [|c text IH]; [done|].
  cbn [flat_map]. rewrite flat_map_app, IH. f_equal.
  unfold decode_char.
  destruct (N.eqb_spec c 8217) as [->|]; [done|].
  cbn [flat_map]. by rewrite app_nil_r.
Qed.

Lemma decode_app a b : decode (a ++ b) = decode a ++ decode b.
Proof. rewrite !decode_flat_map. apply flat_map_app. Qed.

Lemma mention_char_plain c :
  mention_char c = true ->
  decode_char c = [c] /\ c <> 39%N /\ c <> 46%N.
Proof.
  unfold mention_char, alnum, decode_char. intros H.
  rewrite !orb_true_iff, !andb_true_iff, !N.leb_le, !N.eqb_eq in H.
  destruct (N.eqb_spec c 8217); [lia|].
  destruct (N.eqb_spec c 8230); [lia|].
  split_and!; [done|lia|lia].
Qed.

Lemma decode_mention tok : forallb mention_char tok = true -> decode tok = tok.
Proof.
  rewrite decode_flat_map. induction tok as [|c tok IH]; [done|].
  cbn [forallb flat_map]. intros [Hc Htok]%andb_true_iff.
  apply mention_char_plain in Hc as [-> _]. by rewrite (IH Htok).
Qed.

Lemma decode_join tok pieces :
  decode tok = tok -> decode (join tok pieces) = join tok (map decode pieces).
Proof.
  intros Htok. induction pieces as [|p [|p' ps] IH]; [done..|].
  rewrite join_cons, !decode_app, Htok, IH. done.
Qed.

Lemma decode_char_cases c :
  decode_char c = [39%N] \/ decode_char c = [46%N; 46%N; 46%N]
  \/ decode_char c = [c].
Proof.
  unfold decode_char.
  destruct (N.eqb c 8217); [left; reflexivity|].
  destruct (N.eqb c 8230); [right; left|right; right]; reflexivity.
Qed.

(** A mention token at the front of the decoded text was at the front of the
    text. *)
Lemma decode_prefix tok : forall p suf,
  forallb mention_char tok = true ->
  flat_map decode_char p = tok ++ suf ->
  exists p', p = tok ++ p' /\ flat_map decode_char p' = suf.
Proof.
  induction tok as [|t tok IH]; intros p suf; [by exists p|].
  cbn [forallb]. intros [Ht Htok]%andb_true_iff.
  destruct p as [|c p]; [done|]. cbn [flat_map].
  apply mention_char_plain in Ht as (_ & H39 & H46).
  destruct (decode_char_cases c) as [-> | [-> | ->]];
    [intros [= <- _]; done..|].
  intros [= -> H]. destruct (IH p suf Htok H) as (p' & -> & Hp').
  by exists p'.
Qed.

(** Decoding creates no occurrence of a mention token. *)
Lemma decode_infix tok : forall p pre suf,
  tok <> [] -> forallb mention_char tok = true ->
  flat_map decode_char p = pre ++ tok ++ suf ->
  exists pre' suf', p = pre' ++ tok ++ suf'.
Proof.
  intros p pre suf Hne Htok. revert pre.
  induction p as [|c p IH]; intros pre.
  - destruct pre, tok; done.
  - destruct pre as [|x pre].
    { intros H. change ([] ++ tok ++ suf) with (tok ++ suf) in H.
      apply decode_prefix in H as (p' & -> & _); [|done]. by exists [], p'. }
    assert (Hstep : forall pre0, flat_map decode_char p = pre0 ++ tok ++ suf ->
              exists pre' suf', c :: p = pre' ++ tok ++ suf').
    { intros pre0 (pre' & suf' & ->)%IH. by exists (c :: pre'), suf'. }
    assert (H46 : forall k, tok ++ suf <> 46%N :: k).
    { destruct tok as [|t tok]; [done|]. cbn [forallb] in Htok.
      apply andb_true_iff in Htok as [Ht _].
      apply mention_char_plain in Ht as (_ & _ & ?). intros k [= ? _]. done. }
    cbn [flat_map].
    destruct (decode_char_cases c) as [-> | [-> | ->]];
      [intros [= _ H]; by eapply Hstep| |intros [= _ H]; by eapply Hstep].
    intros [= _ H].
    destruct pre as [|y pre]; [symmetry in H; by apply H46 in H|].
    injection H as _ H.
    destruct pre as [|z pre]; [symmetry in H; by apply H46 in H|].
    injection H as _ H. by eapply Hstep.
Qed.

Lemma decode_occurrence tok p :
  tok <> [] -> forallb mention_char tok = true ->
  contains (decode p) tok = true -> contains p tok = true.
Proof.
  intros Hne Htok (pre & suf & H)%contains_spec.
  rewrite decode_flat_map in H.
  apply contains_spec. by eapply decode_infix.
Qed.

Lemma alnum_mention_char c : alnum c = true -> mention_char c = true.
Proof. unfold mention_char. by intros ->. Qed.

(** The shape of a mention token, as the lemmas above need it. *)
Lemma mention_token_facts run :
  forallb alnum run = true ->
  (60%N ∉ 64%N :: run ++ [62%N])
  /\ forallb mention_char (60%N :: 64%N :: run ++ [62%N]) = true
  /\ slice_2_m1 (60%N :: 64%N :: run ++ [62%N]) = run.
Proof.
  intros Hrun. split_and!.
  - rewrite forallb_forall in Hrun.
    intros [?|[H|H%list_elem_of_singleton]%elem_of_app]%elem_of_cons;
      [done| |done].
    apply list_elem_of_In, Hrun in H. done.
  - cbn [forallb]. rewrite forallb_app. cbn [forallb].
    replace (forallb mention_char run) with true; [done|].
    symmetry. rewrite forallb_forall in *.
    intros c Hc. by apply alnum_mention_char, Hrun.
  - unfold slice_2_m1. cbn [length]. rewrite length_app. cbn [length].
    replace (S (S (length run + 1)) - 1) with (S (S (length run))) by lia.
    cbn [take]. rewrite take_app_length. done.
Qed.

(** ** [_normalize_text] *)

Lemma _normalize_text_no_mention members text :
  re_search pattern (decode text) = None ->
  _normalize_text members (Some text) true = Ok (Some (decode text)).
Proof. unfold _normalize_text, decode. by intros ->. Qed.

Lemma _normalize_text_mention members text tok :
  re_search pattern (decode text) = Some tok ->
  _normalize_text members (Some text) true
  = Ok (Some (str_replace (decode text) tok
                (py "@" ++ mention_name members tok))).
Proof. unfold _normalize_text, decode, mention_name. by intros ->. Qed.

Example normalize_known_mention :
  _normalize_text {[ py "U123" := py "Jane Doe" ]}
    (Some (py "<@U123> said hi")) true
  = Ok (Some (py "@Jane Doe said hi")).
Proof. vm_compute. reflexivity. Qed.

Example normalize_unknown_mention :
  _normalize_text ∅ (Some (py "hi <@U9>" ++ [8230%N])) true
  = Ok (Some (py "hi @U9...")).
Proof. vm_compute. reflexivity. Qed.

Example normalize_second_mention_kept :
  _normalize_text {[ py "U1" := py "Ann" ]}
    (Some (py "<@U1> and <@U2>")) true
  = Ok (Some (py "@Ann and <@U2>")).
Proof. vm_compute. reflexivity. Qed.

(** C1.  With [possible_user_id] false the function ends without a [return]:
    for every text the value is [None], not the decoded text.  For
    ["Hello \u2019world\u2019"] the decoded text is ["Hello 'world'"], and
    that is what the call with the flag set returns; the call with the flag
    cleared returns [None]. *)
Theorem normalize_text_flag_off_returns_none :
  (forall members text, _normalize_text members (Some text) false = Ok None)
  /\ decode (py "Hello " ++ [8217%N] ++ py "world" ++ [8217%N])
     = py "Hello 'world'"
  /\ _normalize_text ∅
       (Some (py "Hello " ++ [8217%N] ++ py "world" ++ [8217%N])) true
     = Ok (Some (py "Hello 'world'"))
  /\ _normalize_text ∅
       (Some (py "Hello " ++ [8217%N] ++ py "world" ++ [8217%N])) false
     <> Ok (Some (py "Hello 'world'")).
Proof. split_and!; [done|by vm_compute..|done]. Qed.

(** *** The search finds the first mention token *)

Lemma re_search_unfold items s :
  re_search items s
  = match match_here items s with
    | Some n => Some (take n s)
    | None =>
        match s with
        | [] => None
        | _ :: s' => re_search items s'
        end
    end.
Proof. by destruct s. Qed.

Lemma mention_token_app run rest :
  mention_token run ++ rest = 60%N :: 64%N :: run ++ 62%N :: rest.
Proof. unfold mention_token. cbn [app]. by rewrite <- (assoc_L (++)). Qed.

(** A run of the class followed by a literal outside the class is matched
    whole. *)
Lemma match_here_star_lit_run cls c run rest :
  cls c = false -> forallb cls run = true ->
  match_here [StarClass cls; Lit c] (run ++ c :: rest) = Some (S (length run)).
Proof.
  intros Hc. induction run as [|x run IH]; intros Hrun; rewrite match_here_star.
  - cbn [app]. rewrite Hc. cbn. by rewrite N.eqb_refl.
  - cbn [app forallb] in *. apply andb_true_iff in Hrun as [Hx Hrun].
    by rewrite Hx, (IH Hrun).
Qed.

(** Where a mention token starts, the pattern matches it. *)
Lemma match_here_mention_token run rest :
  forallb alnum run = true ->
  match_here pattern (mention_token run ++ rest)
  = Some (length (mention_token run)).
Proof.
  intros Hrun. rewrite mention_token_app. unfold pattern, mention_token.
  rewrite !match_here_lit_cons. cbn [N.eqb Pos.eqb].
  rewrite match_here_star_lit_run by done.
  cbn [fmap option_fmap option_map length]. rewrite length_app. cbn [length].
  do 3 f_equal. lia.
Qed.

(** [re.search] returns the mention token that starts first. *)
Lemma re_search_leftmost pre : forall s run suf,
  forallb alnum run = true ->
  s = pre ++ mention_token run ++ suf ->
  (forall p r rest,
     s = p ++ mention_token r ++ rest -> forallb alnum r = true ->
     length pre <= length p) ->
  re_search pattern s = Some (mention_token run).
Proof.
  induction pre as [|c pre IH]; intros s run suf Hrun -> Hleft;
    rewrite re_search_unfold.
  - cbn [app]. rewrite match_here_mention_token by done.
    by rewrite take_app_length.
  - destruct (match_here pattern ((c :: pre) ++ mention_token run ++ suf))
      as [n|] eqn:E.
    + apply match_here_pattern in E as (run' & rest' & Heq & Hrun' & _).
      rewrite <- mention_token_app in Heq.
      specialize (Hleft [] run' rest' Heq Hrun'). cbn in Hleft. lia.
    + cbn [app]. apply (IH _ run suf); [done..|].
      intros p r rest Heq Hr.
      specialize (Hleft (c :: p) r rest). cbn [app length] in Hleft.
      rewrite Heq in Hleft. specialize (Hleft eq_refl Hr). lia.
Qed.

(** Decoding neither creates nor moves a mention token: an occurrence in the
    decoded text is an occurrence in the text, between what decodes to the
    parts around it. *)
Lemma decode_infix_parts tok : forall p pre suf,
  tok <> [] -> forallb mention_char tok = true ->
  flat_map decode_char p = pre ++ tok ++ suf ->
  exists pre' suf',
    p = pre' ++ tok ++ suf'
    /\ flat_map decode_char pre' = pre /\ flat_map decode_char suf' = suf.
Proof.
  intros p pre suf Hne Htok. revert pre.
  induction p as [|c p IH]; intros pre.
  - destruct pre, tok; done.
  - destruct pre as [|x pre].
    { intros H. change ([] ++ tok ++ suf) with (tok ++ suf) in H.
      apply decode_prefix in H as (p' & -> & Hp'); [|done]. by exists [], p'. }
    assert (Hstep : forall pre0,
              flat_map decode_char p = pre0 ++ tok ++ suf ->
              exists pre' suf',
                c :: p = pre' ++ tok ++ suf'
                /\ flat_map decode_char pre' = decode_char c ++ pre0
                /\ flat_map decode_char suf' = suf).
    { intros pre0 (pre' & suf' & -> & Hpre & Hsuf)%IH.
      exists (c :: pre'), suf'. cbn [flat_map]. by rewrite Hpre. }
    assert (H46 : forall k, tok ++ suf <> 46%N :: k).
    { destruct tok as [|t tok]; [done|]. cbn [forallb] in Htok.
      apply andb_true_iff in Htok as [Ht _].
      apply mention_char_plain in Ht as (_ & _ & ?). intros k [= ? _]. done. }
    cbn [flat_map].
    destruct (decode_char_cases c) as [Hc | [Hc | Hc]]; rewrite Hc in *.
    + intros [= <- H]. by apply Hstep.
    + intros [= <- H].
      destruct pre as [|y pre]; [symmetry in H; by apply H46 in H|].
      injection H as <- H.
      destruct pre as [|z pre]; [symmetry in H; by apply H46 in H|].
      injection H as <- H. by apply Hstep.
    + intros [= <- H]. by apply Hstep.
Qed.

(** The first mention token of the text is the first one of the decoded
    text. *)
Lemma re_search_decode text pre run suf :
  forallb alnum run = true ->
  text = pre ++ mention_token run ++ suf ->
  (forall p r rest,
     text = p ++ mention_token r ++ rest -> forallb alnum r = true ->
     length pre <= length p) ->
  re_search pattern (decode text) = Some (mention_token run).
Proof.
  intros Hrun -> Hleft.
  destruct (mention_token_facts run Hrun) as (_ & Hchars & _).
  apply (re_search_leftmost (decode pre) _ run (decode suf)); [done|..].
  { by rewrite !decode_app, (decode_mention (mention_token run)). }
  intros p r rest Heq Hr.
  destruct (mention_token_facts r Hr) as (_ & Hchars' & _).
  rewrite decode_flat_map in Heq.
  apply decode_infix_parts in Heq as (p' & rest' & Heq & <- & _);
    [|done..].
  specialize (Hleft p' r rest' Heq Hr).
  assert (Hpre : pre = take (length pre) p').
  { apply (f_equal (take (length pre))) in Heq.
    rewrite take_app_length in Heq.
    by rewrite take_app_le in Heq. }
  rewrite <- (take_drop (length pre) p'), <- Hpre.
  rewrite flat_map_app, <- decode_flat_map, length_app. lia.
Qed.

(** Every text can be cut at the occurrences of a token that does not
    overlap itself. *)
Lemma cut_at_occurrences h t (n : nat) : forall s,
  length s <= n ->
  exists p ps,
    s = join (h :: t) (p :: ps)
    /\ forallb (fun p => negb (contains p (h :: t))) (p :: ps) = true.
Proof.
  induction n as [|n IH]; intros s Hlen.
  - destruct s; [|cbn in Hlen; lia]. by exists [], [].
  - destruct s as [|c s]; [by exists [], []|]. cbn [length] in Hlen.
    destruct (startswith (c :: s) (h :: t)) eqn:E.
    + apply startswith_prefix in E as [rest E].
      destruct (IH rest) as (p & ps & Hrest & Hfree).
      { apply (f_equal length) in E. rewrite length_app in E.
        cbn [length] in E. lia. }
      exists [], (p :: ps). rewrite join_cons, <- Hrest. split; [done|].
      cbn [forallb] in *. by rewrite Hfree.
    + destruct (IH s) as (p & ps & Hs & Hfree); [lia|].
      exists (c :: p), ps. split.
      * rewrite Hs. by destruct ps.
      * cbn [forallb] in *.
        apply andb_true_iff in Hfree as [Hp Hps]. rewrite Hps, andb_true_r.
        cbn [contains]. apply negb_true_iff in Hp. rewrite Hp, orb_false_r.
        apply negb_true_iff, not_true_iff_false.
        intros [k Hk]%startswith_prefix.
        apply not_true_iff_false in E. apply E, startswith_prefix.
        injection Hk as -> ->. rewrite Hs.
        destruct ps as [|p' ps]; cbn [join].
        -- by exists k.
        -- rewrite <- (assoc_L (++)). by eexists.
Qed.

(** C9.  When substitution is enabled and the text contains a mention token,
    ["<@"], a run [run] of letters and digits, [">"], with no mention token
    starting before it, every occurrence of that token is replaced by
    ["@" + name], not only the first: the text can be cut at the occurrences
    of the token into [pieces], none of which contains the token, and for
    every such cut the result is the decoded pieces joined by ["@" + name],
    which is the decoded text with the token replaced by [str.replace].
    [name] is the entry of the identity map for [run], or [run] itself. *)
Theorem normalize_text_replaces_every_occurrence
    (members : gmap str str) (text pre run suf : str) :
  forallb alnum run = true ->
  text = pre ++ mention_token run ++ suf ->
  (forall p r rest,
     text = p ++ mention_token r ++ rest -> forallb alnum r = true ->
     length pre <= length p) ->
  (exists pieces,
     text = join (mention_token run) pieces
     /\ forallb (fun p => negb (contains p (mention_token run))) pieces = true)
  /\ forall pieces,
       text = join (mention_token run) pieces ->
       forallb (fun p => negb (contains p (mention_token run))) pieces = true ->
       _normalize_text members (Some text) true
       = Ok (Some (join (py "@" ++ default run (members !! run))
                     (map decode pieces)))
       /\ join (py "@" ++ default run (members !! run)) (map decode pieces)
          = str_replace (decode text) (mention_token run)
              (py "@" ++ default run (members !! run)).
Proof.
  intros Hrun Hocc Hleft. split.
  { destruct (cut_at_occurrences 60%N (64%N :: run ++ [62%N])
                (length text) text) as (p & ps & Hcut & Hfree); [done|].
    by exists (p :: ps). }
  intros pieces Hjoin Hpieces.
  pose proof (re_search_decode text pre run suf Hrun Hocc Hleft) as Hsearch.
  rewrite (_normalize_text_mention _ _ _ Hsearch).
  destruct (mention_token_facts run Hrun) as (Hhead & Hchars & Hid).
  unfold mention_name. fold (mention_token run) in Hid. rewrite Hid.
  rewrite Hjoin.
  rewrite decode_join by by apply decode_mention.
  unfold mention_token at 1 3.
  rewrite str_replace_join; [done|done|].
  rewrite forallb_forall in Hpieces. rewrite forallb_forall. intros p Hp.
  apply in_map_iff in Hp as (p0 & <- & Hp0). apply Hpieces in Hp0.
  apply negb_true_iff, not_true_iff_false. intros Hc.
  apply decode_occurrence in Hc; [|done..].
  fold (mention_token run) in Hc. by rewrite Hc in Hp0.
Qed.

Lemma normalize_text_replaces_every_occurrence_witness :
  let members : gmap str str := {[ py "U123" := py "Jane Doe" ]} in
  let pre := py "hi " in
  let run := py "U123" in
  let suf := py ", ask <@U123> or <@U2>, won" ++ [8217%N] ++ py "t you" in
  let text := pre ++ mention_token run ++ suf in
  let pieces :=
    [ py "hi "; py ", ask ";
      py " or <@U2>, won" ++ [8217%N] ++ py "t you" ] in
  text = join (mention_token run) pieces
  /\ _normalize_text members (Some text) true
     = Ok (Some (py "hi @Jane Doe, ask @Jane Doe or <@U2>, won't you")).
Proof.
  intros members pre run suf text pieces.
  split; [reflexivity|].
  refine (eq_trans
            (proj1 (proj2 (normalize_text_replaces_every_occurrence
                             members text pre run suf _ _ _)
                      pieces _ _)) _).
  - reflexivity.
  - reflexivity.
  - intros p r rest H _.
    destruct p as [|a [|b [|c p]]];
      [exfalso; vm_compute in H; discriminate H..|].
    change (3 <= S (S (S (length p)))). lia.
  - reflexivity.
  - vm_compute. reflexivity.
  - vm_compute. reflexivity.
Defined.

(** ** [_parse_message] *)

Lemma bind_Ok {A B} (r : result A) (k : A -> result B) b :
  bind r k = Ok b -> exists a, r = Ok a /\ k a = Ok b.
Proof. destruct r as [a|e]; [by exists a|done]. Qed.

Lemma getitem_Ok {A} key (o : option A) a : getitem key o = Ok a -> o = Some a.
Proof. destruct o; [by intros [= ->]|done]. Qed.

Lemma _normalize_text_raises members text flag e :
  _normalize_text members text flag = Raise e -> e = AttributeError.
Proof.
  unfold _normalize_text. destruct text; [|by intros [= <-]].
  destruct flag; [|done]. by destruct (re_search _ _).
Qed.

Section ParserProperties.

Variable datetime : Type.
Variable epoch_to_datetime : str -> result datetime.
Variable strftime : datetime -> str -> str.

Let parse := _parse_message datetime epoch_to_datetime strftime.

Lemma parse_message_id members output_dir message n m :
  parse members output_dir message n = Ok m -> message_id m = n.
Proof.
  unfold parse, _parse_message.
  intros (u & _ & H)%bind_Ok.
  apply bind_Ok in H as (ts & _ & H). apply bind_Ok in H as (d & _ & H).
  apply bind_Ok in H as (t & _ & H). by injection H as <-.
Qed.

(** The sender of a parsed message, by the branches of the code. *)
Lemma parse_message_user members output_dir message n m :
  parse members output_dir message n = Ok m ->
  if bool_decide (raw_subtype message = Some (py "channel_join"))
  then user m = py "Slackbot"
  else match raw_user message with
       | Some u => user m = default u (members !! u)
       | None =>
           raw_subtype message = Some (py "bot_message")
           /\ raw_username message = Some (user m)
       end.
Proof.
  unfold parse, _parse_message.
  intros (u & Hu & H)%bind_Ok.
  apply bind_Ok in H as (ts & _ & H). apply bind_Ok in H as (d & _ & H).
  apply bind_Ok in H as (t & _ & H). injection H as <-. cbn [user].
  case_bool_decide; [by injection Hu|].
  destruct (raw_user message) as [ru|].
  - destruct (members !! ru); by injection Hu.
  - case_bool_decide; [|done]. by apply getitem_Ok in Hu.
Qed.

(** C3 (as amended).  The sender of a parsed message follows the order of
    the code: a channel join is sent by ["Slackbot"], whatever its other
    fields; any other record with a user identifier is sent by the
    identity-map entry for it, or by the identifier when the map has none;
    any other record without one is a bot message sent by its explicit
    username. *)
Theorem parse_message_sender_order
    (members : gmap str str) (output_dir : str) (message : RawMessage)
    (n : nat) (m : Message) :
  parse members output_dir message n = Ok m ->
  (raw_subtype message = Some (py "channel_join") -> user m = py "Slackbot")
  /\ (raw_subtype message <> Some (py "channel_join") ->
      forall u, raw_user message = Some u ->
        user m = default u (members !! u))
  /\ (raw_subtype message <> Some (py "channel_join") ->
      raw_user message = None ->
      raw_subtype message = Some (py "bot_message")
      /\ raw_username message = Some (user m)).
Proof.
  intros H%parse_message_user.
  case_bool_decide as Hs; [by split_and!|].
  split_and!; [done|intros _ u Hu; by rewrite Hu in H|].
  intros _ Hu. by rewrite Hu in H.
Qed.

(** The branch of [_parse_message] for a record without sender: the message
    of the [RuntimeError] is never built, [json.loads] raises first. *)
Lemma parse_message_no_sender members output_dir message n :
  raw_user message = None ->
  raw_subtype message <> Some (py "channel_join") ->
  raw_subtype message <> Some (py "bot_message") ->
  parse members output_dir message n = Raise TypeError.
Proof.
  intros Hu Hj Hb. unfold parse, _parse_message.
  rewrite Hu. by rewrite !bool_decide_eq_false_2.
Qed.

(** With a clock that does not raise [TypeError] itself, that branch is the
    only source of a [TypeError]. *)
Lemma parse_message_type_error_iff members output_dir message n :
  (forall ts, epoch_to_datetime ts <> Raise TypeError) ->
  parse members output_dir message n = Raise TypeError
  <-> raw_user message = None
      /\ raw_subtype message <> Some (py "channel_join")
      /\ raw_subtype message <> Some (py "bot_message").
Proof.
  intros Hclock. split; [|intros (?&?&?); by apply parse_message_no_sender].
  unfold parse, _parse_message.
  assert (Hrest : forall u,
    (ts <- getitem "ts" (raw_ts message) ;;
     timestamp <- epoch_to_datetime ts ;;
     text <- _normalize_text members (raw_text message) true ;;
     Ok {| message_id := n; type := raw_type message;
           subtype := raw_subtype message; text := text; user := u;
           files := match raw_files message with
                    | Some fs => fold_left parse_file fs []
                    | None => []
                    end;
           file_dir := path_join output_dir (py "message_" ++ str_of_nat n);
           timestamp_display :=
             strftime timestamp (py "%m/%d/%Y at %I:%M %p");
           timestamp := strftime timestamp (py "%Y-%m-%d %I:%M%p") |})
    <> Raise TypeError).
  { intros u. destruct (raw_ts message) as [ts|]; [|done]. cbn [getitem bind].
    destruct (epoch_to_datetime ts) as [d|e] eqn:E;
      [|cbn [bind]; intros [= ->]; by eapply Hclock].
    cbn [bind].
    destruct (_normalize_text members (raw_text message) true) as [t|e] eqn:E';
      [done|].
    apply _normalize_text_raises in E' as ->. done. }
  case_bool_decide as Hj; [intros H; by apply Hrest in H|].
  destruct (raw_user message) as [u|].
  { destruct (members !! u); intros H; by apply Hrest in H. }
  case_bool_decide as Hb; [|done].
  destruct (raw_username message); [intros H; by apply Hrest in H|done].
Qed.

(** C10.  A record without user and without subtype does not raise the
    [RuntimeError] written for it: building its message calls [json.loads]
    on the record, a [dict], and that raises [TypeError]. *)
Theorem parse_message_orphan_type_error
    (members : gmap str str) (output_dir : str) (n : nat) :
  parse members output_dir orphan_record n = Raise TypeError
  /\ forall msg,
       parse members output_dir orphan_record n <> Raise (RuntimeError msg).
Proof.
  assert (H : parse members output_dir orphan_record n = Raise TypeError)
    by by apply parse_message_no_sender.
  split; [done|]. intros msg. by rewrite H.
Qed.

End ParserProperties.

Example parse_join_record :
  user <$> (match _parse_message str epoch_string epoch_strftime
                    example_members (py "out") join_record 1 with
            | Ok m => Some m
            | Raise _ => None
            end) = Some (py "Slackbot").
Proof. vm_compute. reflexivity. Qed.

Example parse_files_record :
  match _parse_message str epoch_string epoch_strftime
          example_members (py "out") files_record 7 with
  | Ok m => Some (user m, map filename (files m), file_dir m)
  | Raise _ => None
  end = Some (py "U2", [py "a.png"; py "a (1).png"], py "out/message_7").
Proof. vm_compute. reflexivity. Qed.

(** C3, as the specification words it, fails on a channel join that carries a
    user identifier: the code answers ["Slackbot"], the stated order answers
    the identity-map entry. *)
Lemma sender_priority_counterexample :
  ~ (forall members output_dir message n m,
       _parse_message str epoch_string epoch_strftime
         members output_dir message n = Ok m ->
       sender_by_priority members message = Some (user m)).
Proof.
  intros H.
  destruct (_parse_message str epoch_string epoch_strftime
              example_members (py "out") join_record 1) as [m|e] eqn:E;
    [|by vm_compute in E].
  specialize (H _ _ _ _ _ E).
  vm_compute in E. injection E as <-. by vm_compute in H.
Qed.

Lemma parse_message_sender_order_witness :
  exists m,
    _parse_message str epoch_string epoch_strftime
      example_members (py "out") join_record 1 = Ok m
    /\ user m = py "Slackbot".
Proof.
  eexists. split; [vm_compute; reflexivity|].
  refine (proj1 (parse_message_sender_order str epoch_string epoch_strftime
                   example_members (py "out") join_record 1 _ _) _);
    vm_compute; reflexivity.
Defined.

(** ** [_set_messages] *)

Section MessagesProperties.

Variable datetime : Type.
Variable epoch_to_datetime : str -> result datetime.
Variable strftime : datetime -> str -> str.

Let parse := _parse_message datetime epoch_to_datetime strftime.
Let loop := _set_messages_loop datetime epoch_to_datetime strftime.

(** The loop appends one message per record, in order, numbered upwards from
    [ind + 1]. *)
Lemma _set_messages_loop_spec members output_dir rest :
  forall ind messages_list out,
    loop members output_dir rest ind messages_list = Ok out ->
    exists new,
      out = messages_list ++ new
      /\ length new = length rest
      /\ map message_id new = seq (S ind) (length rest)
      /\ forall i r, rest !! i = Some r ->
           exists m, new !! i = Some m
                     /\ parse members output_dir r (S (ind + i)) = Ok m.
Proof.
  induction rest as [|r rest IH]; intros ind acc out; cbn.
  - intros [= <-]. exists []. rewrite app_nil_r. by split_and!.
  - intros (m & Hm & H)%bind_Ok.
    apply IH in H as (new & -> & Hlen & Hids & Hnth).
    exists (m :: new). rewrite <- (assoc_L (++)). split_and!; [done|..].
    + cbn. by rewrite Hlen.
    + cbn. rewrite Hids. f_equal.
      apply parse_message_id in Hm. rewrite Hm. lia.
    + intros [|i] r'; cbn.
      * intros [= <-]. exists m. split; [done|].
        by replace (S (ind + 0)) with (ind + 1) by lia.
      * intros Hr. apply Hnth in Hr as (m' & ? & Hm'). exists m'.
        split; [done|]. by replace (S (ind + S i)) with (S (S ind + i)) by lia.
Qed.

(** The loop returns whenever every record parses. *)
Lemma _set_messages_loop_total members output_dir rest :
  (forall r n, r ∈ rest ->
     exists m, parse members output_dir r n = Ok m) ->
  forall ind messages_list,
    exists out, loop members output_dir rest ind messages_list = Ok out.
Proof.
  induction rest as [|r rest IH]; intros Hall ind acc; cbn; [by eexists|].
  destruct (Hall r (ind + 1)) as [m Hm]; [by left|].
  unfold parse in Hm. rewrite Hm. cbn [bind].
  apply IH. intros r' n Hr'. apply Hall. by right.
Qed.

(** A record parses, under any number, exactly when it has a sender, a [ts]
    that the clock converts, and a text. *)
Lemma parse_message_parseable members output_dir message n :
  parseable epoch_to_datetime message = true ->
  exists m, parse members output_dir message n = Ok m.
Proof.
  unfold parseable, has_sender, parse, _parse_message.
  intros [[Hsender Hts]%andb_true_iff Htext]%andb_true_iff.
  destruct (raw_ts message) as [ts|]; [|done].
  destruct (epoch_to_datetime ts) as [d|] eqn:Hd; [|done].
  destruct (raw_text message) as [t|]; [|done].
  assert (Htxt : exists t', _normalize_text members (Some t) true = Ok t').
  { unfold _normalize_text. destruct (re_search _ _); by eexists. }
  destruct Htxt as [t' ->].
  case_bool_decide; [cbn; rewrite Hd; by eexists|].
  destruct (raw_user message) as [u|].
  - destruct (members !! u); cbn; rewrite Hd; by eexists.
  - case_bool_decide; [|done].
    destruct (raw_username message); [|done]. cbn. rewrite Hd. by eexists.
Qed.

Lemma parse_message_not_parseable members output_dir message n :
  parseable epoch_to_datetime message = false ->
  exists e, parse members output_dir message n = Raise e.
Proof.
  intros Hno.
  destruct (parse members output_dir message n) as [m|e] eqn:E;
    [|by exists e].
  exfalso. apply not_true_iff_false in Hno. apply Hno. clear Hno.
  unfold parse, _parse_message in E.
  apply bind_Ok in E as (u & Hu & E). apply bind_Ok in E as (ts & Hts & E).
  apply bind_Ok in E as (d & Hd & E). apply bind_Ok in E as (t & Ht & _).
  apply getitem_Ok in Hts.
  unfold parseable, has_sender. rewrite Hts, Hd.
  destruct (raw_text message); [|done]. rewrite !andb_true_r.
  case_bool_decide; [done|].
  destruct (raw_user message); [done|].
  case_bool_decide; [|done].
  apply getitem_Ok in Hu. by rewrite Hu.
Qed.

(** The loop raises as soon as one record does not parse. *)
Lemma _set_messages_loop_raises members output_dir rest :
  forallb (parseable epoch_to_datetime) rest = false ->
  forall ind messages_list,
    exists e, loop members output_dir rest ind messages_list = Raise e.
Proof.
  induction rest as [|r rest IH]; [done|]. cbn [forallb].
  intros Hbad ind acc. cbn.
  destruct (parseable epoch_to_datetime r) eqn:Hr.
  - destruct (parse_message_parseable members output_dir r (ind + 1) Hr)
      as [m Hm].
    unfold parse in Hm. rewrite Hm. cbn [bind]. by apply IH.
  - destruct (parse_message_not_parseable members output_dir r (ind + 1) Hr)
      as [e He].
    unfold parse in He. rewrite He. by exists e.
Qed.

Lemma forallb_rev {A} (f : A -> bool) (l : list A) :
  forallb f (rev l) = forallb f l.
Proof.
  induction l as [|a l IH]; [done|].
  cbn [rev forallb]. rewrite forallb_app, IH. cbn. by rewrite andb_true_r, andb_comm.
Qed.

(** C2 (as amended).  For a raw history whose records all parse (each has a
    sender, a [ts] the clock converts, and a text), [_set_messages] returns
    as many messages as the history has records, their [message_id]s are
    1, 2, ..., N in that order, and the message at position [i] is the parse
    of record [i] of the reversed (oldest-first) history under the number
    [i + 1].  For a raw history with a record that does not parse it raises,
    and there are no messages. *)
Theorem set_messages_numbering
    (members : gmap str str) (output_dir : str)
    (messages_raw : list RawMessage) :
  (forallb (parseable epoch_to_datetime) messages_raw = true ->
   exists messages,
     _set_messages datetime epoch_to_datetime strftime
       members output_dir messages_raw = Ok messages
     /\ length messages = length messages_raw
     /\ map message_id messages = seq 1 (length messages_raw)
     /\ forall i r, rev messages_raw !! i = Some r ->
          exists m, messages !! i = Some m
                    /\ parse members output_dir r (S i) = Ok m)
  /\ (forallb (parseable epoch_to_datetime) messages_raw = false ->
      exists e,
        _set_messages datetime epoch_to_datetime strftime
          members output_dir messages_raw = Raise e).
Proof.
  unfold _set_messages. split.
  - intros Hall.
    destruct (_set_messages_loop_total members output_dir (rev messages_raw))
      with (ind := 0) (messages_list := @nil Message) as [messages H].
    { intros r n Hr. apply parse_message_parseable.
      rewrite <- forallb_rev, forallb_forall in Hall.
      by apply Hall, list_elem_of_In. }
    exists messages. split; [exact H|].
    apply _set_messages_loop_spec in H as (new & -> & Hlen & Hids & Hnth).
    rewrite length_rev in Hlen, Hids. cbn [app]. by split_and!.
  - intros Hbad. apply _set_messages_loop_raises. by rewrite forallb_rev.
Qed.

End MessagesProperties.

(** C2, as the specification words it, fails on a history with a record that
    has no sender: the parser raises on it, and no message is produced. *)
Lemma set_messages_numbering_counterexample :
  ~ (forall messages_raw : list RawMessage,
       exists messages,
         _set_messages str epoch_string epoch_strftime
           example_members (py "out") messages_raw = Ok messages
         /\ length messages = length messages_raw).
Proof.
  intros H.
  destruct (H [files_record; orphan_record; join_record]) as (messages & E & _).
  by vm_compute in E.
Qed.

Lemma set_messages_numbering_witness :
  (exists messages,
     _set_messages str epoch_string epoch_strftime
       example_members (py "out") [files_record; join_record] = Ok messages
     /\ length messages = 2
     /\ map message_id messages = [1; 2]
     /\ map user messages = [py "Slackbot"; py "U2"])
  /\ exists e,
       _set_messages str epoch_string epoch_strftime
         example_members (py "out") [files_record; orphan_record; join_record]
       = Raise e.
Proof.
  split.
  - destruct (proj1 (set_messages_numbering str epoch_string epoch_strftime
                       example_members (py "out") [files_record; join_record])
                eq_refl)
      as (messages & Hrun & Hlen & Hids & _).
    exists messages. split; [exact Hrun|]. split; [exact Hlen|].
    split; [exact Hids|].
    vm_compute in Hrun. injection Hrun as <-. vm_compute. reflexivity.
  - exact (proj2 (set_messages_numbering str epoch_string epoch_strftime
                    example_members (py "out")
                    [files_record; orphan_record; join_record])
             eq_refl).
Defined.

(** ** [make_csv] *)







Section RendererProperties.

Variable os_path_exists : str -> bool.
Variable os_makedirs : str -> result unit.
Variable open_w : str -> result unit.

Let render := make_csv os_path_exists os_makedirs open_w.

(** When the output directory cannot be created, or the file cannot be
    opened, nothing is written and that exception is raised. *)
Lemma make_csv_file_system output_dir channel_name messages e :
  (os_path_exists output_dir = false /\ os_makedirs output_dir = Raise e)
  \/ ((os_path_exists output_dir = false -> os_makedirs output_dir = Ok tt)
      /\ open_w (path_join output_dir (channel_name ++ py ".csv")) = Raise e) ->
  render output_dir channel_name messages = (None, Raised e).
Proof.
  unfold render, make_csv. intros [[-> ->] | [Hdir Hopen]]; [done|].
  destruct (os_path_exists output_dir).
  - destruct (fold_left _ _ _). by rewrite Hopen.
  - rewrite Hdir by done. destruct (fold_left _ _ _). by rewrite Hopen.
Qed.


End RendererProperties.



(** ** [_set_members] *)

Lemma collect_users_loop messages : forall users u,
  u ∈ fold_left
        (fun users message =>
           match raw_user message with
           | Some user =>
               if bool_decide (user ∈ users) then users else users ++ [user]
           | None => users
           end) messages users
  <-> u ∈ users \/ exists message, message ∈ messages /\ raw_user message = Some u.
Proof.
  induction messages as [|m ms IH]; intros users u; cbn [fold_left].
  - split; [by left|]. intros [?|(m & Hm & _)]; [done|]. by apply elem_of_nil in Hm.
  - rewrite IH. split.
    + intros [Hu|(m' & Hm' & Hu)]; [|right; exists m'; split; [by right|done]].
      destruct (raw_user m) as [v|] eqn:E; [|by left].
      case_bool_decide; [by left|].
      apply elem_of_app in Hu as [? | ->%list_elem_of_singleton]; [by left|].
      right. exists m. split; [by left|done].
    + intros [Hu|(m' & [-> | Hm']%elem_of_cons & Hu)].
      * left. destruct (raw_user m); [|done].
        case_bool_decide; [done|]. apply elem_of_app. by left.
      * left. rewrite Hu. case_bool_decide; [done|].
        apply elem_of_app. right. by apply list_elem_of_singleton.
      * right. by exists m'.
Qed.

(** The identifiers collected are those that some record carries. *)
Lemma collect_users_spec messages u :
  u ∈ collect_users messages
  <-> exists message, message ∈ messages /\ raw_user message = Some u.
Proof.
  unfold collect_users. rewrite collect_users_loop. split; [|by right].
  intros [H|H]; [|done]. by apply elem_of_nil in H.
Qed.

Section MembersProperties.

Variable users_info : str -> result UserResponse.






End MembersProperties.



Example set_members_example :
  _set_members example_users_info example_history
  = ([LogError (py "U4");
      LogJson {| data_user :=
                   Some {| data_profile := Some {| real_name := None |};
                           data_name := Some (py "carl") |} |}],
     Ok (<[py "U3" := py "carl"]>
           (<[py "U4" := py "U4"]>
              (<[py "U2" := py "bob"]>
                 (<[py "U1" := py "Jane Doe"]> ∅))))).
Proof. vm_compute. reflexivity. Qed.

Example set_members_aborts :
  (_set_members (fun _ => Raise (URLError (py "timed out")))
     example_history).2
  = Raise (URLError (py "timed out")).
Proof. vm_compute. reflexivity. Qed.

(** ** [post] *)

Section PublisherProperties.

Variable files_upload : str -> str -> str -> result unit.
Variable chat_postMessage : str -> str -> result unit.

Let publish := post files_upload chat_postMessage.

(** [post] never changes the disk. *)
Lemma post_keeps_disk self format w : disk (publish self format w).1 = disk w.
Proof.
  unfold publish, post.
  destruct (artifact_path self format) as [fp|]; [|done].
  destruct (files_upload _ _ _) as [|[]]; try done.
  by destruct (chat_postMessage _ _).
Qed.

(** C8 (as amended).  When the upload raises [URLError], [post] sends the
    support message to the channel right after the upload call and leaves
    the disk as it was, whatever the message call answers; it then raises
    that same [URLError] when the message call returned, and the exception of
    the message call when that call raised. *)
Theorem post_upload_url_error
    (self : Archive) (format fp reason : str) (w : World) :
  artifact_path self format = Ok fp ->
  files_upload (channel_id self) fp (channel_name self ++ py " " ++ format)
    = Raise (URLError reason) ->
  publish self format w
  = ({| disk := disk w;
        sent := sent w
                ++ [FilesUpload (channel_id self) fp
                      (channel_name self ++ py " " ++ format);
                    ChatPostMessage (channel_id self) support_message] |},
     match chat_postMessage (channel_id self) support_message with
     | Ok _ => Raise (URLError reason)
     | Raise e => Raise e
     end).
Proof.
  intros Hfp Hup. unfold publish, post.
  rewrite Hfp, Hup. unfold send. cbn [disk sent].
  rewrite <- (assoc_L (++)).
  by destruct (chat_postMessage _ _).
Qed.

(** If sending the support message raises in turn, that exception is the one
    [post] raises. *)
Lemma post_escalation_raises self format fp reason e w :
  artifact_path self format = Ok fp ->
  files_upload (channel_id self) fp (channel_name self ++ py " " ++ format)
    = Raise (URLError reason) ->
  chat_postMessage (channel_id self) support_message = Raise e ->
  (publish self format w).2 = Raise e.
Proof.
  intros Hfp Hup Hchat. unfold publish, post.
  by rewrite Hfp, Hup, Hchat.
Qed.

(** An upload that raises anything but [URLError] sends no message. *)
Lemma post_other_error self format fp e w :
  artifact_path self format = Ok fp ->
  files_upload (channel_id self) fp (channel_name self ++ py " " ++ format)
    = Raise e ->
  (forall reason, e <> URLError reason) ->
  publish self format w
  = (send (FilesUpload (channel_id self) fp
             (channel_name self ++ py " " ++ format)) w,
     Raise e).
Proof.
  intros Hfp Hup He. unfold publish, post.
  rewrite Hfp, Hup. destruct e; try done. by destruct (He reason).
Qed.

End PublisherProperties.

(** C8, as the specification words it, fails when the message call raises
    in turn: the caller then receives that exception, not the [URLError] of
    the upload. *)
Lemma post_upload_url_error_counterexample :
  ~ (forall (files_upload : str -> str -> str -> result unit)
            (chat_postMessage : str -> str -> result unit)
            (self : Archive) (format fp reason : str) (w : World),
       artifact_path self format = Ok fp ->
       files_upload (channel_id self) fp
         (channel_name self ++ py " " ++ format) = Raise (URLError reason) ->
       (post files_upload chat_postMessage self format w).2
       = Raise (URLError reason)).
Proof.
  intros H.
  specialize (H (fun _ _ _ => Raise (URLError (py "timed out")))
                (fun _ _ => Raise (SlackApiError (py "channel_not_found")))
                example_archive (py "csv")
                (py "/srv/General Archive/general.csv") (py "timed out")
                example_world eq_refl eq_refl).
  by vm_compute in H.
Qed.

Lemma post_upload_url_error_witness :
  post (fun _ _ _ => Raise (URLError (py "timed out"))) (fun _ _ => Ok tt)
    example_archive (py "CSV") example_world
  = ({| disk := disk example_world;
        sent := [FilesUpload (py "C024BE91L")
                   (py "/srv/General Archive/general.csv") (py "general CSV");
                 ChatPostMessage (py "C024BE91L") support_message] |},
     Raise (URLError (py "timed out")))
  /\ post (fun _ _ _ => Raise (URLError (py "timed out")))
       (fun _ _ => Raise (SlackApiError (py "channel_not_found")))
       example_archive (py "CSV") example_world
     = ({| disk := disk example_world;
           sent := [FilesUpload (py "C024BE91L")
                      (py "/srv/General Archive/general.csv")
                      (py "general CSV");
                    ChatPostMessage (py "C024BE91L") support_message] |},
        Raise (SlackApiError (py "channel_not_found"))).
Proof.
  split.
  - apply (post_upload_url_error
             (fun _ _ _ => Raise (URLError (py "timed out"))) (fun _ _ => Ok tt)
             example_archive (py "CSV")
             (py "/srv/General Archive/general.csv") (py "timed out")
             example_world); reflexivity.
  - apply (post_upload_url_error
             (fun _ _ _ => Raise (URLError (py "timed out")))
             (fun _ _ => Raise (SlackApiError (py "channel_not_found")))
             example_archive (py "CSV")
             (py "/srv/General Archive/general.csv") (py "timed out")
             example_world); reflexivity.
Defined.

(** ** [cleanup] *)

Example cleanup_staged :
  cleanup staged_disk
  = (DirNode [ (py "general.csv", FileNode (py "sender,timestamp,text,file"));
               (py "general.pdf", FileNode (py "%PDF")) ],
     Ok tt).
Proof. vm_compute. reflexivity. Qed.

(** C7.  On an output directory with a subdirectory inside a subdirectory,
    [cleanup] raises [FileNotFoundError]: the walk lists the inner directory
    after the outer one, [rmtree] of the outer one removes both, and [rmtree]
    of the inner one finds nothing.  The subdirectories later in the walk are
    left in place. *)
Theorem cleanup_nested_raises :
  cleanup nested_disk
  = (DirNode [ (py "general.csv", FileNode (py "sender,timestamp,text,file"));
               (py "message_2", DirNode [ (py "b.png", FileNode (py "PNG3")) ]) ],
     Raise FileNotFoundError).
Proof. vm_compute. reflexivity. Qed.

Lemma walk_DirNode path entries :
  walk path (DirNode entries)
  = (path,
     map fst (List.filter (fun e => is_dir e.2) entries),
     map fst (List.filter not_dir entries))
    :: flat_map (fun e => walk (path ++ [e.1]) e.2) entries.
Proof.
  cbn [walk]. f_equal.
  induction entries as [|[name child] es IH]; [done|].
  cbn [flat_map fst snd]. by rewrite <- IH.
Qed.

Lemma walk_files_only path sub :
  forallb not_dir sub = true ->
  flat_map (fun e => walk (path ++ [e.1]) e.2) sub = [].
Proof.
  induction sub as [|[n c] sub IH]; [done|].
  cbn [forallb flat_map]. intros [Hn Hsub]%andb_true_iff.
  rewrite (IH Hsub). by destruct c.
Qed.

(** In a flat directory the walk lists, below the top, the subdirectories. *)
Lemma flat_dirs_to_remove entries :
  flat entries = true ->
  map (fun d => d.1.1)
    (List.filter (fun item => negb (bool_decide (item.1.1 = [])))
       (walk [] (DirNode entries)))
  = map (fun e => [e.1]) (List.filter (fun e => is_dir e.2) entries).
Proof.
  rewrite walk_DirNode. cbn [List.filter fst bool_decide decide_rel negb].
  rewrite bool_decide_eq_true_2 by done. cbn [negb].
  induction entries as [|[name child] es IH]; [done|].
  cbn [flat forallb flat_map fst snd]. intros [Hc Hes]%andb_true_iff.
  rewrite List.filter_app, map_app, (IH Hes). cbn [List.filter snd].
  destruct child as [content|sub]; [done|].
  rewrite walk_DirNode, walk_files_only by done.
  cbn [is_dir app List.filter fst map].
  by rewrite bool_decide_eq_false_2 by done.
Qed.

Lemma lookup_entry_app name pre rest :
  name ∉ map fst pre ->
  lookup_entry name (pre ++ rest) = lookup_entry name rest.
Proof.
  induction pre as [|[n c] pre IH]; [done|]. cbn.
  intros [Hn Hpre]%not_elem_of_cons.
  rewrite bool_decide_eq_false_2 by done. by apply IH.
Qed.

Lemma delete_entry_app name pre rest :
  name ∉ map fst pre ->
  delete_entry name (pre ++ rest) = pre ++ delete_entry name rest.
Proof.
  induction pre as [|[n c] pre IH]; [done|]. cbn.
  intros [Hn Hpre]%not_elem_of_cons.
  rewrite bool_decide_eq_false_2 by done. by rewrite IH.
Qed.

(** Removing the subdirectories one by one leaves the files. *)
Lemma cleanup_loop_flat rest : forall pre,
  NoDup (map fst (pre ++ rest)) ->
  cleanup_loop (map (fun e => [e.1]) (List.filter (fun e => is_dir e.2) rest))
    (DirNode (pre ++ rest))
  = (DirNode (pre ++ List.filter not_dir rest), Ok tt).
Proof.
  induction rest as [|[name child] rest IH]; intros pre Hnd; [done|].
  destruct child as [content|sub]; cbn [List.filter not_dir is_dir snd negb].
  - rewrite (cons_middle _ pre rest), (cons_middle _ pre (List.filter _ _)).
    rewrite !(assoc_L (++)). apply IH. by rewrite <- (assoc_L (++)).
  - cbn [map fst cleanup_loop rmtree].
    rewrite map_app in Hnd. apply NoDup_app in Hnd as (Hndpre & Hpre & Hrest).
    assert (Hname : name ∉ map fst pre).
    { intros Hin. apply (Hpre name Hin). by left. }
    rewrite lookup_entry_app by done. cbn [lookup_entry].
    rewrite bool_decide_eq_true_2 by done.
    rewrite delete_entry_app by done. cbn [delete_entry].
    rewrite bool_decide_eq_true_2 by done.
    apply IH. rewrite map_app. apply NoDup_app. split_and!.
    + done.
    + intros x Hx Hx'. apply (Hpre x Hx). by right.
    + by apply NoDup_cons in Hrest as [_ ?].
Qed.

(** On a flat output directory [cleanup] removes the subdirectories, keeps
    the files of the directory, and raises nothing. *)
Lemma cleanup_flat entries :
  NoDup (map fst entries) -> flat entries = true ->
  cleanup (DirNode entries) = (DirNode (List.filter not_dir entries), Ok tt).
Proof.
  intros Hnd Hflat. unfold cleanup. rewrite flat_dirs_to_remove by done.
  by apply (cleanup_loop_flat entries []).
Qed.

(** On a directory without subdirectories [cleanup] does nothing. *)
Lemma cleanup_no_dirs entries :
  forallb not_dir entries = true ->
  cleanup (DirNode entries) = (DirNode entries, Ok tt).
Proof.
  intros Hfiles. unfold cleanup. rewrite flat_dirs_to_remove.
  - replace (List.filter (fun e => is_dir e.2) entries)
      with (@nil (str * Node)); [done|].
    symmetry. induction entries as [|[n c] es IH]; [done|].
    cbn [forallb] in Hfiles. apply andb_true_iff in Hfiles as [Hc Hes].
    destruct c; cbn in *; [exact (IH Hes)|done].
  - unfold flat. rewrite forallb_forall in Hfiles. rewrite forallb_forall.
    intros [n c] Hin. specialize (Hfiles _ Hin). by destruct c.
Qed.

(** On a flat output directory a second [cleanup] changes nothing and raises
    nothing. *)
Lemma cleanup_flat_idempotent entries :
  NoDup (map fst entries) -> flat entries = true ->
  cleanup (cleanup (DirNode entries)).1 = cleanup (DirNode entries).
Proof.
  intros Hnd Hflat. rewrite cleanup_flat by done. cbn [fst].
  apply cleanup_no_dirs. apply forallb_forall.
  intros e [_ He]%filter_In. done.
Qed.

Example cleanup_flat_staged :
  cleanup (cleanup staged_disk).1 = cleanup staged_disk.
Proof.
  apply cleanup_flat_idempotent; [|reflexivity].
  compute_done.
Qed.

(** ** The pipeline on the example history *)

(** Two records, newest first: the join becomes message 1 and one CSV row
    with an empty file field; the message with two attachments becomes
    message 2 and two rows that differ in the file field only. *)
Example make_csv_example :
  match _set_messages str epoch_string epoch_strftime example_members
          (py "out") [files_record; join_record] with
  | Ok messages =>
      make_csv dir_exists makedirs_ok open_ok (py "out") (py "general") messages
  | Raise e => (None, Raised e)
  end
  = (Some [ [py "sender"; py "timestamp"; py "text"; py "file"];
            [py "Slackbot"; py "1600000000.000100 as %Y-%m-%d %I:%M%p";
             py "@Jane Doe has joined the channel"; []];
            [py "U2"; py "1600000100.000200 as %Y-%m-%d %I:%M%p";
             py "two pictures"; py "https://files/1"];
            [py "U2"; py "1600000100.000200 as %Y-%m-%d %I:%M%p";
             py "two pictures"; py "https://files/2"] ],
     Returned (py "out/general.csv")).
Proof. vm_compute. reflexivity. Qed.

Example make_csv_empty :
  make_csv dir_exists makedirs_ok open_ok (py "out") (py "general") []
  = (Some [], Raised UnboundLocalError).
Proof. reflexivity. Qed.

Example set_messages_orphan :
  _set_messages str epoch_string epoch_strftime example_members (py "out")
    [files_record; orphan_record; join_record]
  = Raise TypeError.
Proof. vm_compute. reflexivity. Qed.

(** * Further properties of the code *)

(** ** Attachments of a parsed message *)

Lemma unique_filename_fresh orig_filename (file_list : list str) :
  unique_filename orig_filename file_list ∉ file_list.
Proof.
  destruct (unique_filename_fuel_enough orig_filename file_list)
    as (n & Hrun & Hfree & _).
  unfold unique_filename. by rewrite Hrun.
Qed.

Lemma parse_file_names files f :
  map filename (parse_file files f)
  = map filename files
    ++ [unique_filename (default (py "Unknown") (name f)) (map filename files)].
Proof. unfold parse_file. rewrite map_app. by destruct (name f). Qed.

Lemma parse_files_nodup fs : forall files,
  NoDup (map filename files) ->
  NoDup (map filename (fold_left parse_file fs files)).
Proof.
  induction fs as [|f fs IH]; intros files Hnd; [done|].
  cbn [fold_left]. apply IH. rewrite parse_file_names.
  apply NoDup_app. split_and!; [done| |apply NoDup_singleton].
  intros x Hx ->%list_elem_of_singleton.
  by apply unique_filename_fresh in Hx.
Qed.

Lemma parse_files_urls fs : forall files,
  map url (fold_left parse_file fs files)
  = map url files ++ map url_private fs
  /\ map url_download (fold_left parse_file fs files)
     = map url_download files ++ map url_private_download fs.
Proof.
  induction fs as [|f fs IH]; intros files; cbn [fold_left map].
  - by rewrite !app_nil_r.
  - destruct (IH (parse_file files f)) as [-> ->].
    unfold parse_file. rewrite !map_app. cbn [map url url_download].
    by rewrite <- !(assoc_L (++)).
Qed.

Section AttachmentProperties.

Variable datetime : Type.
Variable epoch_to_datetime : str -> result datetime.
Variable strftime : datetime -> str -> str.

Let parse := _parse_message datetime epoch_to_datetime strftime.

(** What a successful parse says about the record and the message. *)
Lemma parse_message_inv members output_dir message n m :
  parse members output_dir message n = Ok m ->
  exists ts d t,
    raw_ts message = Some ts
    /\ epoch_to_datetime ts = Ok d
    /\ _normalize_text members (raw_text message) true = Ok t
    /\ message_id m = n
    /\ type m = raw_type message
    /\ subtype m = raw_subtype message
    /\ text m = t
    /\ files m = fold_left parse_file (default [] (raw_files message)) []
    /\ file_dir m = path_join output_dir (py "message_" ++ str_of_nat n)
    /\ timestamp_display m = strftime d (py "%m/%d/%Y at %I:%M %p")
    /\ timestamp m = strftime d (py "%Y-%m-%d %I:%M%p").
Proof.
  unfold parse, _parse_message.
  intros (u & _ & H)%bind_Ok.
  apply bind_Ok in H as (ts & Hts%getitem_Ok & H).
  apply bind_Ok in H as (d & Hd & H).
  apply bind_Ok in H as (t & Ht & H). injection H as <-.
  exists ts, d, t. cbn. split_and!; try done.
  by destruct (raw_files message).
Qed.

(** The attachments of a parsed message have pairwise distinct file names,
    whatever names the record gave them. *)
Theorem parse_message_filenames_distinct
    (members : gmap str str) (output_dir : str) (message : RawMessage)
    (n : nat) (m : Message) :
  parse members output_dir message n = Ok m ->
  NoDup (map filename (files m)).
Proof.
  intros (?&?&?&_&_&_&_&_&_&_&->&_)%parse_message_inv.
  apply parse_files_nodup. constructor.
Qed.

(** A parsed message has one attachment per entry of the record's [files],
    in the same order, each with the entry's two URLs; a record without
    [files] has none. *)
Theorem parse_message_files_urls
    (members : gmap str str) (output_dir : str) (message : RawMessage)
    (n : nat) (m : Message) :
  parse members output_dir message n = Ok m ->
  length (files m) = length (default [] (raw_files message))
  /\ map url (files m) = map url_private (default [] (raw_files message))
  /\ map url_download (files m)
     = map url_private_download (default [] (raw_files message)).
Proof.
  intros (?&?&?&_&_&_&_&_&_&_&->&_)%parse_message_inv.
  destruct (parse_files_urls (default [] (raw_files message)) []) as [Hu Hd].
  split_and!; [|done..].
  cbn [map app] in Hu. apply (f_equal length) in Hu.
  by rewrite !length_map in Hu.
Qed.

(** The text of a parsed message is never [None]: the record has a text, and
    the message carries what [_normalize_text] makes of it. *)
Theorem parse_message_text_present
    (members : gmap str str) (output_dir : str) (message : RawMessage)
    (n : nat) (m : Message) :
  parse members output_dir message n = Ok m ->
  exists raw t,
    raw_text message = Some raw
    /\ text m = Some t
    /\ _normalize_text members (Some raw) true = Ok (Some t).
Proof.
  intros (?&?&t&_&_&Ht&_&_&_&->&_)%parse_message_inv.
  destruct (raw_text message) as [raw|]; [|done].
  exists raw. unfold _normalize_text in Ht |- *.
  destruct (re_search _ _); injection Ht as <-; by eexists.
Qed.

End AttachmentProperties.

Lemma parse_message_filenames_distinct_witness :
  exists m,
    _parse_message str epoch_string epoch_strftime
      example_members (py "out") files_record 2 = Ok m
    /\ map filename (files m) = [py "a.png"; py "a (1).png"]
    /\ NoDup (map filename (files m)).
Proof.
  eexists. split; [vm_compute; reflexivity|].
  split; [vm_compute; reflexivity|].
  refine (parse_message_filenames_distinct str epoch_string epoch_strftime
            example_members (py "out") files_record 2 _ _).
  vm_compute. reflexivity.
Defined.

Lemma parse_message_files_urls_witness :
  exists m,
    _parse_message str epoch_string epoch_strftime
      example_members (py "out") files_record 2 = Ok m
    /\ length (files m) = 2
    /\ map url (files m)
       = [Some (py "https://files/1"); Some (py "https://files/2")].
Proof.
  eexists. split; [vm_compute; reflexivity|].
  split.
  - refine (proj1 (parse_message_files_urls str epoch_string epoch_strftime
                     example_members (py "out") files_record 2 _ _)).
    vm_compute. reflexivity.
  - refine (proj1 (proj2 (parse_message_files_urls str epoch_string
                            epoch_strftime example_members (py "out")
                            files_record 2 _ _))).
    vm_compute. reflexivity.
Defined.

Lemma parse_message_text_present_witness :
  exists m,
    _parse_message str epoch_string epoch_strftime
      example_members (py "out") join_record 1 = Ok m
    /\ exists raw t,
         raw_text join_record = Some raw
         /\ text m = Some t
         /\ _normalize_text example_members (Some raw) true = Ok (Some t).
Proof.
  eexists. split; [vm_compute; reflexivity|].
  refine (parse_message_text_present str epoch_string epoch_strftime
            example_members (py "out") join_record 1 _ _).
  vm_compute. reflexivity.
Defined.

(** ** Records that do not parse *)

Section ParseErrors.

Variable datetime : Type.
Variable epoch_to_datetime : str -> result datetime.
Variable strftime : datetime -> str -> str.

Let parse := _parse_message datetime epoch_to_datetime strftime.

(** Whether and how a record fails does not depend on its number. *)
Lemma parse_message_raise_any_id members output_dir message n n' e :
  parse members output_dir message n = Raise e ->
  parse members output_dir message n' = Raise e.
Proof.
  unfold parse, _parse_message.
  destruct (if bool_decide (raw_subtype message = Some (py "channel_join"))
            then _ else _) as [u|]; [|done].
  cbn [bind]. destruct (getitem "ts" (raw_ts message)) as [ts|]; [|done].
  cbn [bind]. destruct (epoch_to_datetime ts) as [d|]; [|done].
  cbn [bind].
  by destruct (_normalize_text members (raw_text message) true).
Qed.

(** A bot message without user identifier and without [username] raises
    [KeyError], whatever else the record holds. *)
Theorem parse_bot_message_without_username
    (members : gmap str str) (output_dir : str) (message : RawMessage)
    (n : nat) :
  raw_subtype message = Some (py "bot_message") ->
  raw_user message = None ->
  raw_username message = None ->
  parse members output_dir message n = Raise (KeyError (py "username")).
Proof.
  intros Hs Hu Hn. unfold parse, _parse_message. by rewrite Hs, Hu, Hn.
Qed.

(** A record whose sender resolves but that has no [ts] raises [KeyError];
    with a [ts] the clock accepts and no [text] it raises [AttributeError]
    (the text is [None], and [None] has no [replace]). *)
Theorem parse_message_missing_ts_or_text
    (members : gmap str str) (output_dir : str) (message : RawMessage)
    (n : nat) :
  is_Some (raw_user message)
  \/ raw_subtype message = Some (py "channel_join") ->
  (raw_ts message = None ->
   parse members output_dir message n = Raise (KeyError (py "ts")))
  /\ (forall ts d,
        raw_ts message = Some ts -> epoch_to_datetime ts = Ok d ->
        raw_text message = None ->
        parse members output_dir message n = Raise AttributeError).
Proof.
  intros Hsender. unfold parse, _parse_message.
  assert (exists u,
    (if bool_decide (raw_subtype message = Some (py "channel_join"))
     then Ok (py "Slackbot")
     else match raw_user message with
          | None =>
              if bool_decide (raw_subtype message = Some (py "bot_message"))
              then getitem "username" (raw_username message)
              else dump <- json_loads message ;;
                   Raise (RuntimeError
                            (py "No user for this message:" ++ [10%N] ++ dump))
          | Some raw_user =>
              match members !! raw_user with
              | Some user => Ok user
              | None => Ok raw_user
              end
          end) = Ok u) as [u ->].
  { case_bool_decide as Hj; [by eexists|].
    destruct Hsender as [[ru ->]|?]; [|done].
    destruct (members !! ru); by eexists. }
  cbn [bind]. split.
  - by intros ->.
  - intros ts d -> Hd ->. cbn [getitem bind]. by rewrite Hd.
Qed.

End ParseErrors.

Lemma parse_bot_message_without_username_witness :
  _parse_message str epoch_string epoch_strftime example_members (py "out")
    bot_record 3
  = Raise (KeyError (py "username")).
Proof.
  apply (parse_bot_message_without_username str epoch_string epoch_strftime
           example_members (py "out") bot_record 3); reflexivity.
Defined.

Lemma parse_message_missing_ts_or_text_witness :
  _parse_message str epoch_string epoch_strftime example_members (py "out")
    no_ts_record 3
  = Raise (KeyError (py "ts"))
  /\ _parse_message str epoch_string epoch_strftime example_members (py "out")
       no_text_record 3
     = Raise AttributeError.
Proof.
  split.
  - refine (proj1 (parse_message_missing_ts_or_text str epoch_string
                     epoch_strftime example_members (py "out")
                     no_ts_record 3 _) _); [|reflexivity].
    left. exists (py "U2"). reflexivity.
  - refine (proj2 (parse_message_missing_ts_or_text str epoch_string
                     epoch_strftime example_members (py "out")
                     no_text_record 3 _)
              (py "1600000400.000500") (py "1600000400.000500") _ _ _);
      [|reflexivity..].
    left. exists (py "U2"). reflexivity.
Defined.

(** ** The parsed history as a whole *)

Lemma map_fmap {A B} (f : A -> B) (l : list A) : map f l = f <$> l.
Proof. induction l as [|a l IH]; [done|]. cbn. by rewrite IH. Qed.

Lemma file_dir_inj output_dir n n' :
  path_join output_dir (py "message_" ++ str_of_nat n)
  = path_join output_dir (py "message_" ++ str_of_nat n') ->
  n = n'.
Proof.
  unfold path_join.
  assert (Hrel : forall b, startswith (py "message_" ++ b) (py "/") = false)
    by reflexivity.
  rewrite !Hrel.
  destruct (_ || _); intros H.
  - by apply app_inv_head, app_inv_head, str_of_nat_inj in H.
  - by apply app_inv_head, app_inv_head, app_inv_head, str_of_nat_inj in H.
Qed.

Section HistoryProperties.

Variable datetime : Type.
Variable epoch_to_datetime : str -> result datetime.
Variable strftime : datetime -> str -> str.

Let parse := _parse_message datetime epoch_to_datetime strftime.
Let set_messages := _set_messages datetime epoch_to_datetime strftime.

(** No two messages of a parsed history share a staging directory. *)
Theorem set_messages_file_dirs_distinct
    (members : gmap str str) (output_dir : str)
    (messages_raw : list RawMessage) (messages : list Message) :
  set_messages members output_dir messages_raw = Ok messages ->
  NoDup (map file_dir messages).
Proof.
  unfold set_messages, _set_messages. intros H.
  apply _set_messages_loop_spec in H as (new & -> & Hlen & _ & Hnth).
  cbn [app]. rewrite map_fmap. apply NoDup_alt.
  assert (Hdir : forall i x, (file_dir <$> new) !! i = Some x ->
            x = path_join output_dir (py "message_" ++ str_of_nat (S i))).
  { intros i x Hx. rewrite list_lookup_fmap in Hx.
    destruct (new !! i) as [m|] eqn:Hm; [|done]. injection Hx as <-.
    destruct (lookup_lt_is_Some_2 (rev messages_raw) i) as [r Hr].
    { rewrite <- Hlen. by eapply lookup_lt_Some. }
    destruct (Hnth i r Hr) as (m' & Hm' & Hparse).
    rewrite Hm in Hm'. injection Hm' as <-.
    by apply parse_message_inv in Hparse as (?&?&?&_&_&_&_&_&_&_&_&->&_). }
  intros i j x Hi%Hdir Hj%Hdir. rewrite Hi in Hj.
  apply file_dir_inj in Hj. lia.
Qed.

(** One record that does not parse aborts the whole history: no list of
    messages is returned, not even of the records that do parse. *)
Theorem set_messages_aborts
    (members : gmap str str) (output_dir : str)
    (messages_raw : list RawMessage) (r : RawMessage) (e : exn) :
  r ∈ messages_raw ->
  parse members output_dir r 1 = Raise e ->
  exists e', set_messages members output_dir messages_raw = Raise e'.
Proof.
  intros Hin Hr. unfold set_messages.
  destruct (_set_messages _ _ _ _ _ _) as [messages|e'] eqn:E; [|by exists e'].
  unfold _set_messages in E.
  apply _set_messages_loop_spec in E as (new & _ & _ & _ & Hnth).
  apply list_elem_of_In, in_rev, list_elem_of_In in Hin.
  apply list_elem_of_lookup in Hin as [i Hi].
  destruct (Hnth i r Hi) as (m & _ & Hm).
  apply (parse_message_raise_any_id _ _ _ _ _ _ _ (S (0 + i))) in Hr.
  unfold parse in Hr. by rewrite Hr in Hm.
Qed.

End HistoryProperties.

Lemma set_messages_file_dirs_distinct_witness :
  exists messages,
    _set_messages str epoch_string epoch_strftime
      example_members (py "out") [files_record; join_record] = Ok messages
    /\ map file_dir messages = [py "out/message_1"; py "out/message_2"]
    /\ NoDup (map file_dir messages).
Proof.
  eexists. split; [vm_compute; reflexivity|].
  split; [vm_compute; reflexivity|].
  refine (set_messages_file_dirs_distinct str epoch_string epoch_strftime
            example_members (py "out") [files_record; join_record] _ _).
  vm_compute. reflexivity.
Defined.

Lemma set_messages_aborts_witness :
  exists e',
    _set_messages str epoch_string epoch_strftime example_members (py "out")
      [files_record; no_ts_record; join_record] = Raise e'.
Proof.
  refine (set_messages_aborts str epoch_string epoch_strftime
            example_members (py "out")
            [files_record; no_ts_record; join_record]
            no_ts_record (KeyError (py "ts")) _ _).
  - right. left.
  - reflexivity.
Defined.

(** ** The identity resolver beyond its policy *)

Lemma collect_users_loop_nodup messages : forall users,
  NoDup users ->
  NoDup (fold_left
           (fun users message =>
              match raw_user message with
              | Some user =>
                  if bool_decide (user ∈ users) then users else users ++ [user]
              | None => users
              end) messages users).
Proof.
  induction messages as [|m ms IH]; intros users Hnd; [done|].
  cbn [fold_left]. apply IH.
  destruct (raw_user m) as [u|]; [|done].
  case_bool_decide as Hu; [done|].
  apply NoDup_app. split_and!; [done| |apply NoDup_singleton].
  by intros x Hx ->%list_elem_of_singleton.
Qed.

(** Every identifier of the history is looked up, and none twice: the list
    of lookups has no duplicate and holds exactly the identifiers that some
    record carries. *)
Theorem collect_users_distinct (messages : list RawMessage) :
  NoDup (collect_users messages)
  /\ forall u,
       u ∈ collect_users messages
       <-> exists message, message ∈ messages /\ raw_user message = Some u.
Proof.
  split; [|apply collect_users_spec].
  apply collect_users_loop_nodup. constructor.
Qed.

Lemma real_name_or_name_raises user_data e :
  real_name_or_name user_data = Raise e -> exists key, e = KeyError key.
Proof.
  unfold real_name_or_name.
  destruct (data_profile user_data) as [profile|]; cbn [getitem bind];
    [|intros [= <-]; by eexists].
  destruct (real_name profile) as [n|]; cbn [getitem bind];
    [|intros [= <-]; by eexists].
  case_bool_decide; [|done].
  destruct (data_name user_data); cbn [getitem]; [done|].
  intros [= <-]. by eexists.
Qed.

Section ResolverProperties.

Variable users_info : str -> result UserResponse.

Lemma _set_members_loop_aborts users : forall user_dict u e,
  u ∈ users -> users_info u = Raise e -> is_api_error (users_info u) = false ->
  exists e', (_set_members_loop users_info users user_dict).2 = Raise e'.
Proof.
  induction users as [|user users IH]; intros user_dict u e Hin Hu Hne.
  { by apply elem_of_nil in Hin. }
  cbn [_set_members_loop].
  destruct (_set_members_step users_info user_dict user)
    as [log [user_dict'|e0]] eqn:Hstep; [|by exists e0].
  apply elem_of_cons in Hin as [-> | Hin].
  - exfalso. unfold _set_members_step, lookup_user_name in Hstep.
    rewrite Hu in Hstep, Hne. by destruct e.
  - destruct (IH user_dict' u e Hin Hu Hne) as [e' He'].
    destruct (_set_members_loop users_info users user_dict') as [log' r].
    by exists e'.
Qed.

(** A lookup that raises anything but [SlackApiError] aborts the resolver:
    no identity map is returned. *)
Theorem set_members_other_error_aborts
    (messages : list RawMessage) (message : RawMessage) (u : str) (e : exn) :
  message ∈ messages -> raw_user message = Some u ->
  users_info u = Raise e -> is_api_error (users_info u) = false ->
  exists e', (_set_members users_info messages).2 = Raise e'.
Proof.
  intros Hin Hu He Hne. unfold _set_members.
  eapply _set_members_loop_aborts; [|done..].
  apply collect_users_spec. by exists message.
Qed.

Lemma _set_members_step_log user_dict user log user_dict' :
  _set_members_step users_info user_dict user = (log, Ok user_dict') ->
  logged_errors log = if is_api_error (users_info user) then [user] else [].
Proof.
  unfold _set_members_step, lookup_user_name.
  destruct (users_info user) as [response|e].
  - destruct (data_user response) as [user_data|]; cbn [getitem]; [|done].
    destruct (real_name_or_name user_data) as [n|e] eqn:E.
    + by intros [= <- _].
    + apply real_name_or_name_raises in E as [key ->].
      destruct (data_name user_data) as [n|]; cbn [getitem]; [|done].
      by intros [= <- _].
  - destruct e; try done. by intros [= <- _].
Qed.

Lemma _set_members_loop_log users : forall user_dict log members,
  _set_members_loop users_info users user_dict = (log, Ok members) ->
  logged_errors log
  = List.filter (fun u => is_api_error (users_info u)) users.
Proof.
  induction users as [|user users IH]; intros user_dict log members.
  { by intros [= <- _]. }
  cbn [_set_members_loop List.filter].
  destruct (_set_members_step users_info user_dict user)
    as [l [user_dict'|e0]] eqn:Hstep; [|done].
  destruct (_set_members_loop users_info users user_dict')
    as [l' r] eqn:Hloop.
  intros [= <- ->]. unfold logged_errors. rewrite flat_map_app.
  fold (logged_errors l). fold (logged_errors l').
  rewrite (_set_members_step_log _ _ _ _ Hstep), (IH _ _ _ Hloop).
  by destruct (is_api_error (users_info user)).
Qed.

(** When the resolver returns, the error log names the identifiers whose
    lookup raised [SlackApiError], each once, in the order of their first
    appearance in the history, and no other. *)
Theorem set_members_error_log
    (messages : list RawMessage) (log : list log_entry)
    (members : gmap str str) :
  _set_members users_info messages = (log, Ok members) ->
  logged_errors log
  = List.filter (fun u => is_api_error (users_info u))
      (collect_users messages).
Proof. apply _set_members_loop_log. Qed.

End ResolverProperties.

Lemma set_members_other_error_aborts_witness :
  exists e',
    (_set_members (fun _ => Raise (URLError (py "timed out")))
       example_history).2 = Raise e'.
Proof.
  refine (set_members_other_error_aborts (fun _ => Raise (URLError (py "timed out")))
            example_history (record_of (Some (py "U1"))) (py "U1")
            (URLError (py "timed out")) _ _ _ _).
  - left.
  - reflexivity.
  - reflexivity.
  - reflexivity.
Defined.

Lemma set_members_error_log_witness :
  exists log members,
    _set_members example_users_info example_history = (log, Ok members)
    /\ logged_errors log = [py "U4"].
Proof.
  eexists _, _. split; [vm_compute; reflexivity|].
  refine (eq_trans (set_members_error_log example_users_info
                      example_history _ _ _) _).
  - vm_compute. reflexivity.
  - vm_compute. reflexivity.
Defined.

(** ** [post] when the upload or the support message fails *)

Lemma post_other_error_witness :
  post (fun _ _ _ => Raise (SlackApiError (py "not_in_channel")))
    (fun _ _ => Ok tt) example_archive (py "csv") example_world
  = ({| disk := disk example_world;
        sent := [FilesUpload (py "C024BE91L")
                   (py "/srv/General Archive/general.csv")
                   (py "general csv")] |},
     Raise (SlackApiError (py "not_in_channel"))).
Proof.
  apply (post_other_error
           (fun _ _ _ => Raise (SlackApiError (py "not_in_channel")))
           (fun _ _ => Ok tt) example_archive (py "csv")
           (py "/srv/General Archive/general.csv")
           (SlackApiError (py "not_in_channel")) example_world);
    [reflexivity|reflexivity|discriminate].
Defined.

Lemma post_escalation_raises_witness :
  (post (fun _ _ _ => Raise (URLError (py "timed out")))
     (fun _ _ => Raise (URLError (py "unreachable")))
     example_archive (py "csv") example_world).2
  = Raise (URLError (py "unreachable")).
Proof.
  apply (post_escalation_raises
           (fun _ _ _ => Raise (URLError (py "timed out")))
           (fun _ _ => Raise (URLError (py "unreachable")))
           example_archive (py "csv")
           (py "/srv/General Archive/general.csv") (py "timed out"));
    reflexivity.
Defined.

(** ** [cleanup] and the files of the output directory *)

Lemma delete_entry_dir_files name sub entries :
  lookup_entry name entries = Some (DirNode sub) ->
  List.filter not_dir (delete_entry name entries)
  = List.filter not_dir entries.
Proof.
  induction entries as [|[n c] es IH]; [done|]. cbn [lookup_entry delete_entry].
  case_bool_decide as Hn.
  - by intros [= ->].
  - intros Hl. cbn [List.filter]. by rewrite (IH Hl).
Qed.

Lemma replace_entry_dir_files name sub sub' entries :
  lookup_entry name entries = Some (DirNode sub) ->
  List.filter not_dir (replace_entry name (DirNode sub') entries)
  = List.filter not_dir entries.
Proof.
  induction entries as [|[n c] es IH]; [done|].
  cbn [lookup_entry replace_entry].
  case_bool_decide as Hn.
  - by intros [= ->].
  - intros Hl. cbn [List.filter]. by rewrite (IH Hl).
Qed.

Lemma rmtree_deeper name r rest entries :
  rmtree (name :: r :: rest) (DirNode entries)
  = match lookup_entry name entries with
    | Some child =>
        child' <- rmtree (r :: rest) child ;;
        Ok (DirNode (replace_entry name child' entries))
    | None => Raise FileNotFoundError
    end.
Proof. reflexivity. Qed.

Lemma rmtree_dir path : forall root root',
  rmtree path root = Ok root' ->
  (exists entries, root = DirNode entries)
  /\ exists entries', root' = DirNode entries'.
Proof.
  intros [content|entries] root' H; [by destruct path|].
  split; [by eexists|].
  destruct path as [|name [|r rest]];
    [cbn [rmtree] in H..|rewrite rmtree_deeper in H].
  - injection H as <-. by eexists.
  - destruct (lookup_entry name entries) as [[|]|]; try done.
    injection H as <-. by eexists.
  - destruct (lookup_entry name entries) as [child|]; [|done].
    apply bind_Ok in H as (child' & _ & [= <-]). by eexists.
Qed.

Lemma rmtree_keeps_files path entries root' :
  rmtree path (DirNode entries) = Ok root' ->
  exists entries',
    root' = DirNode entries'
    /\ List.filter not_dir entries' = List.filter not_dir entries.
Proof.
  destruct path as [|name [|r rest]];
    [cbn [rmtree]..|rewrite rmtree_deeper].
  - intros [= <-]. by eexists.
  - destruct (lookup_entry name entries) as [[|sub]|] eqn:E; try done.
    intros [= <-]. eexists. split; [done|].
    by eapply delete_entry_dir_files.
  - destruct (lookup_entry name entries) as [child|] eqn:E; [|done].
    intros (child' & Hchild & [= <-])%bind_Ok.
    apply rmtree_dir in Hchild as [[sub ->] [sub' ->]].
    eexists. split; [done|]. by eapply replace_entry_dir_files.
Qed.

Lemma cleanup_loop_keeps_files dirs : forall entries,
  exists entries',
    (cleanup_loop dirs (DirNode entries)).1 = DirNode entries'
    /\ List.filter not_dir entries' = List.filter not_dir entries.
Proof.
  induction dirs as [|d dirs IH]; intros entries; cbn [cleanup_loop].
  - by eexists.
  - destruct (rmtree d (DirNode entries)) as [root'|e] eqn:E; [|by eexists].
    apply rmtree_keeps_files in E as (entries1 & -> & H1).
    destruct (IH entries1) as (entries' & ? & H2).
    exists entries'. split; [done|]. by rewrite H2.
Qed.

(** Whatever the output directory holds, and whether or not it raises,
    [cleanup] leaves the files that lie directly in the output directory as
    they are, in the same order. *)
Theorem cleanup_keeps_files (entries : list (str * Node)) :
  exists entries',
    (cleanup (DirNode entries)).1 = DirNode entries'
    /\ List.filter not_dir entries' = List.filter not_dir entries.
Proof. apply cleanup_loop_keeps_files. Qed.

(** On an output directory whose subdirectories hold files only, [cleanup]
    removes every subdirectory, keeps the files of the directory, and raises
    nothing; run again on the result, it changes nothing and raises
    nothing. *)
Theorem cleanup_staged_directories (entries : list (str * Node)) :
  NoDup (map fst entries) -> flat entries = true ->
  cleanup (DirNode entries) = (DirNode (List.filter not_dir entries), Ok tt)
  /\ cleanup (DirNode (List.filter not_dir entries))
     = (DirNode (List.filter not_dir entries), Ok tt).
Proof.
  intros Hnd Hflat. split; [by apply cleanup_flat|].
  apply cleanup_no_dirs, forallb_forall.
  by intros e [_ He]%filter_In.
Qed.

Lemma cleanup_staged_directories_witness :
  cleanup staged_disk
  = (DirNode [ (py "general.csv", FileNode (py "sender,timestamp,text,file"));
               (py "general.pdf", FileNode (py "%PDF")) ],
     Ok tt)
  /\ cleanup
       (DirNode [ (py "general.csv", FileNode (py "sender,timestamp,text,file"));
                  (py "general.pdf", FileNode (py "%PDF")) ])
     = (DirNode [ (py "general.csv", FileNode (py "sender,timestamp,text,file"));
                  (py "general.pdf", FileNode (py "%PDF")) ],
        Ok tt).
Proof.
  refine (cleanup_staged_directories
            [ (py "general.csv", FileNode (py "sender,timestamp,text,file"));
              (py "message_1", DirNode [ (py "a.png", FileNode (py "PNG1")) ]);
              (py "general.pdf", FileNode (py "%PDF"));
              (py "message_2", DirNode [ (py "b.png", FileNode (py "PNG3")) ]) ]
            _ _).
  - compute_done.
  - reflexivity.
Defined.

(** ** [_normalize_text] on texts without mention *)

Lemma decode_not_special text : forallb not_special (decode text) = true.
Proof.
  rewrite decode_flat_map. induction text as [|c text IH]; [done|].
  cbn [flat_map]. rewrite forallb_app, IH, andb_true_r.
  unfold decode_char, not_special.
  destruct (N.eqb_spec c 8217); [done|].
  destruct (N.eqb_spec c 8230); [done|].
  cbn [forallb]. rewrite andb_true_r.
  apply andb_true_iff. split; apply negb_true_iff; by apply N.eqb_neq.
Qed.

Lemma decode_fixed text : forallb not_special text = true -> decode text = text.
Proof.
  rewrite decode_flat_map. induction text as [|c text IH]; [done|].
  cbn [forallb flat_map]. intros [Hc Ht]%andb_true_iff. rewrite (IH Ht).
  unfold not_special in Hc. apply andb_true_iff in Hc as [H1 H2].
  unfold decode_char.
  apply negb_true_iff in H1 as ->. by apply negb_true_iff in H2 as ->.
Qed.

Lemma re_search_no_open s :
  forallb (fun c => negb (N.eqb c 60)) s = true -> re_search pattern s = None.
Proof.
  induction s as [|c s IH]; [done|].
  cbn [forallb]. intros [Hc Hs%IH]%andb_true_iff.
  cbn [re_search]. unfold pattern at 1. rewrite match_here_lit_cons.
  apply negb_true_iff in Hc as ->. done.
Qed.

(** With substitution enabled the normalizer returns a text for every text
    (it neither raises nor returns [None]).  When the decoded text holds no
    mention token, the result holds neither U+2019 nor U+2026, and
    normalizing the result again returns it unchanged. *)
Theorem normalize_text_enabled (members : gmap str str) (text : str) :
  exists r,
    _normalize_text members (Some text) true = Ok (Some r)
    /\ (re_search pattern (decode text) = None ->
        forallb not_special r = true
        /\ _normalize_text members (Some r) true = Ok (Some r)).
Proof.
  destruct (re_search pattern (decode text)) as [tok|] eqn:E.
  - eexists. split; [by apply _normalize_text_mention|done].
  - exists (decode text). split; [by apply _normalize_text_no_mention|].
    intros _. split; [apply decode_not_special|].
    rewrite _normalize_text_no_mention;
      rewrite decode_fixed by apply decode_not_special; done.
Qed.

(** A text with no ['<'], no U+2019 and no U+2026 comes back as it is. *)
Theorem normalize_text_plain (members : gmap str str) (text : str) :
  forallb (fun c => not_special c && negb (N.eqb c 60)) text = true ->
  _normalize_text members (Some text) true = Ok (Some text).
Proof.
  intros H.
  assert (H1 : forallb not_special text = true).
  { rewrite forallb_forall in *. intros c Hc.
    by apply H, andb_true_iff in Hc as [? _]. }
  assert (H2 : forallb (fun c => negb (N.eqb c 60)) text = true).
  { rewrite forallb_forall in *. intros c Hc.
    by apply H, andb_true_iff in Hc as [_ ?]. }
  rewrite _normalize_text_no_mention; rewrite decode_fixed by done;
    [done|by apply re_search_no_open].
Qed.

Lemma normalize_text_plain_witness :
  _normalize_text example_members (Some (py "see you at 5 > 4 @ noon")) true
  = Ok (Some (py "see you at 5 > 4 @ noon")).
Proof.
  apply (normalize_text_plain example_members
           (py "see you at 5 > 4 @ noon")).
  vm_compute. reflexivity.
Defined.

(** ** [_get_channel_history] *)

Section HistoryFetchProperties.

Variable conversations_history : option str -> result HistoryPage.

Let fetch := _get_channel_history conversations_history.

Lemma history_loop_continues p ps r :
  continues conversations_history p ps r ->
  forallb has_messages ps = true ->
  forall acc fuel,
    length ps < fuel ->
    history_loop conversations_history fuel p (Some acc)
    = Some match r with
           | Ok _ => Ok (Some (acc ++ pages_messages ps))
           | Raise e => Raise e
           end.
Proof.
  induction 1 as [p Hp|p md next e Hp Hmd Hnext Hfetch
                 |p md next p' ps r Hp Hmd Hnext Hfetch Hrest IH];
    intros Hps acc [|fuel] Hfuel; try (cbn in Hfuel; lia);
    cbn [history_loop]; rewrite Hp; cbn [getitem].
  - by rewrite app_nil_r.
  - rewrite Hmd. cbn [getitem bind]. rewrite Hnext. cbn [getitem bind].
    by rewrite Hfetch.
  - rewrite Hmd. cbn [getitem bind]. rewrite Hnext. cbn [getitem bind].
    rewrite Hfetch. cbn [getitem bind].
    cbn [forallb] in Hps. apply andb_true_iff in Hps as [Hp' Hps].
    unfold has_messages in Hp'. apply bool_decide_eq_true in Hp' as [ms Hms].
    rewrite Hms. cbn [getitem bind].
    rewrite (IH Hps) by (cbn in Hfuel; lia).
    unfold pages_messages. cbn [flat_map]. rewrite Hms. cbn [default].
    by rewrite (assoc_L (++)).
Qed.

(** When the platform serves the pages [p0, p1, ..., pn], each but the last
    announcing more and naming the cursor of the next, the history returned
    holds the messages of all pages in fetch order, reports no more pages
    and carries no cursor. *)
Theorem get_channel_history_pages
    (p0 : HistoryPage) (ps : list HistoryPage) (fuel : nat) :
  conversations_history None = Ok p0 ->
  continues conversations_history p0 ps (Ok tt) ->
  forallb has_messages (p0 :: ps) = true ->
  length ps < fuel ->
  fetch fuel
  = Some (Ok {| page_messages := Some (pages_messages (p0 :: ps));
                has_more := Some false;
                response_metadata := None |}).
Proof.
  intros H0 Hrest Hms Hfuel. unfold fetch, _get_channel_history. rewrite H0.
  cbn [forallb] in Hms. apply andb_true_iff in Hms as [Hp0 Hps].
  unfold has_messages in Hp0. apply bool_decide_eq_true in Hp0 as [ms Hms].
  rewrite Hms, (history_loop_continues _ _ _ Hrest Hps) by done.
  unfold pages_messages. cbn [flat_map]. rewrite Hms. cbn [default].
  destruct (response_metadata p0) eqn:Hmd; [done|].
  inversion Hrest as [? Hstop| |]; [|congruence..].
  by rewrite Hstop.
Qed.

(** When a later page cannot be fetched, the exception of that fetch is the
    outcome: the messages of the pages fetched before are not returned. *)
Theorem get_channel_history_page_error
    (p0 : HistoryPage) (ps : list HistoryPage) (e : exn) (fuel : nat) :
  conversations_history None = Ok p0 ->
  continues conversations_history p0 ps (Raise e) ->
  forallb has_messages (p0 :: ps) = true ->
  length ps < fuel ->
  fetch fuel = Some (Raise e).
Proof.
  intros H0 Hrest Hms Hfuel. unfold fetch, _get_channel_history. rewrite H0.
  cbn [forallb] in Hms. apply andb_true_iff in Hms as [Hp0 Hps].
  unfold has_messages in Hp0. apply bool_decide_eq_true in Hp0 as [ms Hms].
  by rewrite Hms, (history_loop_continues _ _ _ Hrest Hps) by done.
Qed.

End HistoryFetchProperties.

Lemma get_channel_history_pages_witness :
  _get_channel_history two_pages 2
  = Some (Ok {| page_messages := Some [files_record; join_record];
                has_more := Some false;
                response_metadata := None |}).
Proof.
  apply (get_channel_history_pages two_pages first_page [last_page] 2).
  - reflexivity.
  - eapply continues_more; [reflexivity..|].
    apply continues_stop. reflexivity.
  - reflexivity.
  - cbn. lia.
Defined.

Lemma get_channel_history_page_error_witness :
  _get_channel_history second_page_fails 1
  = Some (Raise (SlackApiError (py "ratelimited"))).
Proof.
  apply (get_channel_history_page_error second_page_fails first_page [] _ 1).
  - reflexivity.
  - eapply continues_error; reflexivity.
  - reflexivity.
  - cbn. lia.
Defined.

(** ** [make_pdf] *)

Lemma lower_app a b : lower (a ++ b) = lower a ++ lower b.
Proof. apply map_app. Qed.

(** A path that ends in [/None] has none of the image extensions. *)
Lemma none_path_unsupported file_dir :
  endswith_any (lower (file_dir ++ py "/" ++ format_value None))
    supported_filetypes = false.
Proof.
  rewrite !lower_app. unfold endswith_any, supported_filetypes, endswith.
  rewrite !rev_app_distr. reflexivity.
Qed.

Section DocumentProperties.

Variable fpdf : list pdf_call -> pdf_call -> result unit.

(** Every attachment goes to [_put_link], under the label [File: None]. *)
Lemma make_pdf_file_link members file_dir file :
  make_pdf_file fpdf members file_dir file
  = _put_link fpdf (py "File: None") (url file).
Proof.
  unfold make_pdf_file. cbn [_normalize_text].
  by rewrite none_path_unsupported.
Qed.

Lemma image_free_pdf c : is_image c = false -> image_free (pdf fpdf c).
Proof.
  intros Hc calls Hcalls. unfold pdf. cbn [fst].
  rewrite forallb_app, Hcalls. cbn [forallb]. by rewrite Hc.
Qed.

Lemma image_free_ret {A} (a : A) : image_free (pdf_ret a).
Proof. by intros calls Hcalls. Qed.

Lemma image_free_raise {A} (o : outcome A) :
  image_free (fun calls => (calls, o)).
Proof. by intros calls Hcalls. Qed.

Lemma image_free_bind {A B} (m : pdf_step A) (k : A -> pdf_step B) :
  image_free m -> (forall a, image_free (k a)) -> image_free (pdf_bind m k).
Proof.
  intros Hm Hk calls Hcalls. unfold pdf_bind.
  specialize (Hm calls Hcalls).
  destruct (m calls) as [calls' [a| |]]; [by apply Hk|done..].
Qed.

Lemma image_free_for {A} (body : A -> pdf_step unit) l :
  (forall a, image_free (body a)) -> image_free (pdf_for body l).
Proof.
  intros Hbody. induction l as [|a l IH]; [apply image_free_ret|].
  cbn [pdf_for]. by apply image_free_bind.
Qed.

Lemma image_free_put_link text url : image_free (_put_link fpdf text url).
Proof.
  unfold _put_link.
  repeat (apply image_free_bind; [|intros _]); by apply image_free_pdf.
Qed.

Lemma image_free_message members message :
  image_free (make_pdf_message fpdf members message).
Proof.
  unfold make_pdf_message.
  repeat (apply image_free_bind; [|intros _]);
    try (by apply image_free_pdf).
  - destruct (text message) as [t|]; [|apply image_free_raise].
    destruct (0 <? length t); [by apply image_free_pdf|apply image_free_ret].
  - destruct (0 <? length (files message)); [|apply image_free_ret].
    apply image_free_for. intros file. rewrite make_pdf_file_link.
    apply image_free_put_link.
Qed.

(** [make_pdf] never calls [pdf.image]: whatever the messages hold and
    however the library answers, no image is embedded in the document (the
    file name that decides it is the [None] that [_normalize_text] returns
    with substitution disabled). *)
Theorem make_pdf_no_image
    (members : gmap str str) (output_dir channel_name timestamp : str)
    (messages : list Message) :
  forallb (fun c => negb (is_image c))
    (make_pdf fpdf members output_dir channel_name timestamp messages).1
  = true.
Proof.
  unfold make_pdf.
  match goal with
  | |- forallb _ (?m []).1 = true => assert (H : image_free m)
  end; [|by apply H].
  repeat (apply image_free_bind; [|intros _]);
    try (by apply image_free_pdf); try apply image_free_ret.
  - destruct (latin1_strict _); [by apply image_free_pdf|apply image_free_raise].
  - apply image_free_for. intros m. apply image_free_message.
Qed.

End DocumentProperties.







(** ** [download_files] *)

Lemma requested_app a b : requested (a ++ b) = requested a ++ requested b.
Proof. apply flat_map_app. Qed.

Lemma requests_ret {A} (a : A) : requests (io_ret a) [].
Proof.
  intros calls. exists []. cbn. rewrite app_nil_r. by split_and!.
Qed.

Lemma requests_io {A} c (answer : list io_call -> result A) :
  requests (io c answer) (requested [c]).
Proof.
  intros calls. exists (requested [c]). unfold io. cbn [fst snd].
  by rewrite requested_app.
Qed.

Lemma requests_bind {A B} (m : io_step A) (k : A -> io_step B) l1 l2 :
  requests m l1 -> (forall a, requests (k a) l2) ->
  requests (io_bind m k) (l1 ++ l2).
Proof.
  intros Hm Hk calls. unfold io_bind.
  destruct (Hm calls) as (d1 & Hreq1 & Hpre1 & Hok1).
  destruct (m calls) as [calls1 [a|e]]; cbn [fst snd] in *.
  - rewrite (Hok1 a eq_refl) in *.
    destruct (Hk a calls1) as (d2 & Hreq2 & Hpre2 & Hok2).
    exists (l1 ++ d2). rewrite Hreq2, Hreq1, (assoc_L (++)).
    split_and!; [done|by apply prefix_app|].
    intros b Hb. by rewrite (Hok2 b Hb).
  - exists d1. split_and!; [done|by apply prefix_app_r|done].
Qed.

Lemma requests_for {A} (body : A -> io_step unit) (f : A -> list str) l :
  (forall a, requests (body a) (f a)) ->
  requests (io_for body l) (flat_map f l).
Proof.
  intros Hbody. induction l as [|a l IH]; [apply requests_ret|].
  cbn [io_for flat_map]. by apply requests_bind.
Qed.

Section DownloaderProperties.

Variable os_path_exists : list io_call -> str -> result bool.
Variable os_makedirs : list io_call -> str -> result unit.
Variable requests_get : list io_call -> str -> result (option str).
Variable write_file : list io_call -> str -> str -> result unit.

Lemma requests_download_file file_dir file :
  requests (download_file requests_get write_file file_dir file)
    (match url_download file with Some u => [u] | None => [] end).
Proof.
  unfold download_file. destruct (url_download file) as [u|];
    [|apply requests_ret].
  apply (requests_bind _ _ [u] []); [apply (requests_io (RequestsGet u))|].
  intros [content|]; [apply (requests_io (WriteFile _ _))|apply requests_ret].
Qed.

Lemma requests_download_message message :
  requests (download_message os_path_exists os_makedirs requests_get
              write_file message)
    (image_urls message).
Proof.
  unfold download_message, image_urls.
  destruct (files message) as [|f fs] eqn:E; [apply requests_ret|].
  cbn [length Nat.ltb Nat.leb]. rewrite <- E.
  destruct (List.filter _ (files message)) as [|g gs] eqn:F;
    [apply requests_ret|].
  cbn [length Nat.ltb Nat.leb]. rewrite <- F.
  apply (requests_bind _ _ [] _); [apply (requests_io (PathExists _))|].
  intros present.
  apply (requests_bind _ _ [] _).
  - destruct present; [apply requests_ret|apply (requests_io (Makedirs _))].
  - intros _. apply requests_for. intros file. apply requests_download_file.
Qed.

(** Whatever the file system and the network answer, [download_files]
    requests download URLs of image attachments only (lower-cased file name
    ending in jpg, jpeg, png or gif), in message and attachment order,
    without skipping one; when it returns it has requested all of them. *)
Theorem download_files_requests (messages : list Message) :
  requested (download_files os_path_exists os_makedirs requests_get
               write_file messages).1
    `prefix_of` flat_map image_urls messages
  /\ ((download_files os_path_exists os_makedirs requests_get
         write_file messages).2 = Ok tt ->
      requested (download_files os_path_exists os_makedirs requests_get
                   write_file messages).1
      = flat_map image_urls messages).
Proof.
  unfold download_files.
  destruct (requests_for _ _ messages requests_download_message [])
    as (d & Hreq & Hpre & Hok).
  cbn [requested flat_map app] in Hreq. rewrite Hreq.
  split; [done|]. intros H. by rewrite (Hok tt H).
Qed.

End DownloaderProperties.

(** ** [cleanup] on nested directories *)

Lemma cleanup_loop_app l1 l2 disk :
  cleanup_loop (l1 ++ l2) disk
  = match cleanup_loop l1 disk with
    | (disk', Ok _) => cleanup_loop l2 disk'
    | r => r
    end.
Proof.
  revert disk; induction l1 as [|d l1 IH]; intros disk; [done|].
  cbn [app cleanup_loop]. by destruct (rmtree d disk).
Qed.

Lemma lookup_entry_None name entries :
  name ∉ map fst entries -> lookup_entry name entries = None.
Proof.
  induction entries as [|[n c] es IH]; [done|]. cbn.
  intros [Hn Hes]%not_elem_of_cons.
  rewrite bool_decide_eq_false_2 by done. by apply IH.
Qed.

Lemma filter_names_subset (f : str * Node -> bool) entries name :
  name ∈ map fst (List.filter f entries) -> name ∈ map fst entries.
Proof.
  rewrite !list_elem_of_In, !in_map_iff.
  intros (e & <- & [He _]%filter_In). by exists e.
Qed.

(** The subdirectories of a flat part of the directory are removed one by
    one, whatever follows that part. *)
Lemma cleanup_loop_flat_part rest : forall pre post,
  NoDup (map fst (pre ++ rest ++ post)) ->
  cleanup_loop (map (fun e => [e.1]) (List.filter (fun e => is_dir e.2) rest))
    (DirNode (pre ++ rest ++ post))
  = (DirNode (pre ++ List.filter not_dir rest ++ post), Ok tt).
Proof.
  induction rest as [|[name child] rest IH]; intros pre post Hnd; [done|].
  destruct child as [content|sub]; cbn [List.filter not_dir is_dir snd negb].
  - cbn [app]. rewrite (cons_middle _ pre (rest ++ post)).
    rewrite (cons_middle _ pre (List.filter _ _ ++ post)).
    rewrite !(assoc_L (++) pre). apply IH.
    by rewrite <- (assoc_L (++) pre).
  - cbn [map fst cleanup_loop rmtree app].
    rewrite map_app in Hnd. apply NoDup_app in Hnd as (Hndpre & Hpre & Hrest).
    assert (Hname : name ∉ map fst pre).
    { intros Hin. apply (Hpre name Hin). by left. }
    rewrite lookup_entry_app by done. cbn [lookup_entry].
    rewrite bool_decide_eq_true_2 by done.
    rewrite delete_entry_app by done. cbn [delete_entry].
    rewrite bool_decide_eq_true_2 by done.
    apply IH. rewrite map_app. apply NoDup_app. split_and!; [done| |].
    + intros x Hx Hx'. apply (Hpre x Hx). by right.
    + by apply NoDup_cons in Hrest as [_ ?].
Qed.

Lemma flat_split entries :
  flat entries = false ->
  exists pre a sub post,
    entries = pre ++ (a, DirNode sub) :: post
    /\ flat pre = true /\ forallb not_dir sub = false.
Proof.
  induction entries as [|[n c] es IH]; [done|].
  cbn [flat forallb snd]. intros [Hc|Hes]%andb_false_iff.
  - destruct c as [|sub]; [done|]. by exists [], n, sub, es.
  - destruct (match c with FileNode _ => true | DirNode sub => forallb not_dir sub end)
      eqn:Hc.
    + destruct (IH Hes) as (pre & a & sub & post & -> & Hpre & Hsub).
      exists ((n, c) :: pre), a, sub, post. split_and!; [done| |done].
      cbn [flat forallb snd]. by rewrite Hc.
    + destruct c as [|sub]; [done|]. by exists [], n, sub, es.
Qed.

Lemma first_dir sub :
  forallb not_dir sub = false ->
  exists s1 b bsub s2,
    sub = s1 ++ (b, DirNode bsub) :: s2 /\ forallb not_dir s1 = true.
Proof.
  induction sub as [|[n c] sub IH]; [done|].
  destruct c as [content|bsub].
  - cbn [forallb]. intros H. destruct (IH H) as (s1 & b & bsub & s2 & -> & Hs1).
    by exists ((n, FileNode content) :: s1), b, bsub, s2.
  - intros _. by exists [], n, bsub, sub.
Qed.

(** The directories listed for removal when [a], a subdirectory with a
    directory [b] in it, follows a flat part [pre]. *)
Lemma nested_dirs_to_remove pre a sub post :
  flat pre = true -> forallb not_dir sub = false ->
  exists b rest,
    map (fun d => d.1.1)
      (List.filter (fun item => negb (bool_decide (item.1.1 = [])))
         (walk [] (DirNode (pre ++ (a, DirNode sub) :: post))))
    = map (fun e => [e.1]) (List.filter (fun e => is_dir e.2) pre)
      ++ [a] :: [a; b] :: rest.
Proof.
  intros Hpre (s1 & b & bsub & s2 & -> & Hs1)%first_dir.
  pose proof (flat_dirs_to_remove pre Hpre) as Hwalk.
  rewrite walk_DirNode in Hwalk |- *.
  cbn [List.filter fst] in Hwalk |- *.
  rewrite bool_decide_eq_true_2 in Hwalk |- * by done.
  cbn [negb] in Hwalk |- *.
  rewrite flat_map_app, List.filter_app, map_app, Hwalk.
  cbn [flat_map fst snd app]. rewrite walk_DirNode.
  rewrite flat_map_app, walk_files_only by done.
  cbn [flat_map fst snd app]. rewrite walk_DirNode.
  cbn [List.filter fst app map].
  rewrite !bool_decide_eq_false_2 by done. cbn [negb map fst].
  by eexists b, _.
Qed.

Lemma rmtree_single name entries :
  rmtree [name] (DirNode entries)
  = match lookup_entry name entries with
    | Some (DirNode _) => Ok (DirNode (delete_entry name entries))
    | Some (FileNode _) => Raise NotADirectoryError
    | None => Raise FileNotFoundError
    end.
Proof. reflexivity. Qed.

(** With entries of distinct names, [cleanup] returns exactly when no
    subdirectory of the output directory holds a directory; otherwise it
    raises [FileNotFoundError]. *)
Theorem cleanup_outcome (entries : list (str * Node)) :
  NoDup (map fst entries) ->
  (cleanup (DirNode entries)).2
  = if flat entries then Ok tt else Raise FileNotFoundError.
Proof.
  intros Hnd. destruct (flat entries) eqn:Hflat.
  { by rewrite cleanup_flat. }
  apply flat_split in Hflat as (pre & a & sub & post & -> & Hpre & Hsub).
  unfold cleanup.
  destruct (nested_dirs_to_remove pre a sub post Hpre Hsub) as (b & rest & ->).
  rewrite cleanup_loop_app.
  pose proof (cleanup_loop_flat_part pre [] ((a, DirNode sub) :: post) Hnd)
    as Hloop.
  cbn [app] in Hloop. rewrite Hloop. cbn [cleanup_loop].
  assert (Ha : a ∉ map fst (List.filter not_dir pre ++ post)).
  { rewrite map_app in Hnd |- *.
    apply NoDup_app in Hnd as (_ & Hdisj & Hrest).
    cbn [map fst] in Hdisj, Hrest. apply NoDup_cons in Hrest as [Hpost _].
    intros [Hin%filter_names_subset|Hin]%elem_of_app; [|done].
    apply (Hdisj a Hin). by left. }
  assert (Ha' : a ∉ map fst (List.filter not_dir pre)).
  { intros Hin. apply Ha. rewrite map_app. apply elem_of_app. by left. }
  rewrite rmtree_single, lookup_entry_app by done. cbn [lookup_entry].
  rewrite bool_decide_eq_true_2 by done.
  rewrite delete_entry_app by done. cbn [delete_entry].
  rewrite bool_decide_eq_true_2 by done.
  by rewrite rmtree_deeper, lookup_entry_None by done.
Qed.

Lemma cleanup_outcome_witness :
  (cleanup
     (DirNode
        [ (py "general.csv", FileNode (py "sender,timestamp,text,file"));
          (py "message_1",
           DirNode [ (py "a.png", FileNode (py "PNG1"));
                     (py "thumbs",
                      DirNode [ (py "a_small.png", FileNode (py "PNG2")) ]) ]);
          (py "message_2", DirNode [ (py "b.png", FileNode (py "PNG3")) ]) ])).2
  = Raise FileNotFoundError.
Proof.
  refine (cleanup_outcome
            [ (py "general.csv", FileNode (py "sender,timestamp,text,file"));
              (py "message_1",
               DirNode [ (py "a.png", FileNode (py "PNG1"));
                         (py "thumbs",
                          DirNode [ (py "a_small.png", FileNode (py "PNG2")) ]) ]);
              (py "message_2", DirNode [ (py "b.png", FileNode (py "PNG3")) ]) ]
            _).
  compute_done.
Defined.

(** ** The paths that [download_files] writes to *)

Lemma uint_digits_no_slash d : 47%N ∉ uint_digits d.
Proof.
  induction d; cbn [uint_digits];
    [apply not_elem_of_nil|apply not_elem_of_cons; split; [done|assumption]..].
Qed.

Lemma digits_before_slash d : forall d' x y,
  47%N ∉ d -> 47%N ∉ d' ->
  d ++ 47%N :: x = d' ++ 47%N :: y -> d = d' /\ x = y.
Proof.
  induction d as [|c d IH]; intros [|c' d'] x y Hd Hd'; cbn [app].
  - by intros [= ->].
  - intros [= <- _]. exfalso. apply Hd'. by left.
  - intros [= -> _]. exfalso. apply Hd. by left.
  - intros [= -> H].
    apply not_elem_of_cons in Hd as [_ Hd].
    apply not_elem_of_cons in Hd' as [_ Hd'].
    by destruct (IH d' x y Hd Hd' H) as [-> ->].
Qed.

(** The staging path determines the message number and the file name. *)
Lemma staging_path_inj output_dir n n' name name' :
  path_join output_dir (py "message_" ++ str_of_nat n) ++ py "/" ++ name
  = path_join output_dir (py "message_" ++ str_of_nat n') ++ py "/" ++ name' ->
  n = n' /\ name = name'.
Proof.
  unfold path_join.
  assert (Hrel : forall b, startswith (py "message_" ++ b) (py "/") = false)
    by reflexivity.
  rewrite !Hrel.
  assert (Hcut : forall pre : str,
    (pre ++ py "message_" ++ str_of_nat n) ++ py "/" ++ name
    = (pre ++ py "message_" ++ str_of_nat n') ++ py "/" ++ name' ->
    n = n' /\ name = name').
  { intros pre H. rewrite <- !(assoc_L (++)) in H.
    apply app_inv_head, app_inv_head in H.
    apply digits_before_slash in H as [Hn ->];
      [|apply uint_digits_no_slash..].
    by apply str_of_nat_inj in Hn as ->. }
  destruct (_ || _); [apply Hcut|].
  intros H. apply (Hcut (output_dir ++ py "/")).
  by rewrite <- !(assoc_L (++)) in H |- *.
Qed.

Lemma writes_ret {A} (a : A) : writes (io_ret a) [].
Proof. intros calls. exists []. cbn. by rewrite app_nil_r. Qed.

Lemma written_app a b : written (a ++ b) = written a ++ written b.
Proof. apply flat_map_app. Qed.

Lemma writes_io {A} c (answer : list io_call -> result A) :
  writes (io c answer) (written [c]).
Proof.
  intros calls. exists (written [c]). unfold io. cbn [fst].
  by rewrite written_app.
Qed.

Lemma writes_weaken {A} (m : io_step A) l l' :
  l `sublist_of` l' -> writes m l -> writes m l'.
Proof.
  intros Hl Hm calls. destruct (Hm calls) as (d & ? & ?).
  exists d. split; [done|]. by etrans.
Qed.

Lemma writes_bind {A B} (m : io_step A) (k : A -> io_step B) l1 l2 :
  writes m l1 -> (forall a, writes (k a) l2) -> writes (io_bind m k) (l1 ++ l2).
Proof.
  intros Hm Hk calls. unfold io_bind.
  destruct (Hm calls) as (d1 & Hw1 & Hs1).
  destruct (m calls) as [calls1 [a|e]]; cbn [fst] in *.
  - destruct (Hk a calls1) as (d2 & Hw2 & Hs2).
    exists (d1 ++ d2). rewrite Hw2, Hw1, (assoc_L (++)).
    split; [done|by apply sublist_app].
  - exists d1. split; [done|]. by apply sublist_inserts_r.
Qed.

Lemma writes_for {A} (body : A -> io_step unit) (f : A -> list str) l :
  (forall a, writes (body a) (f a)) -> writes (io_for body l) (flat_map f l).
Proof.
  intros Hbody. induction l as [|a l IH]; [apply writes_ret|].
  cbn [io_for flat_map]. by apply writes_bind.
Qed.

Lemma flat_map_singleton {A B} (f : A -> B) (l : list A) :
  flat_map (fun a => [f a]) l = map f l.
Proof. induction l as [|a l IH]; [done|]. cbn. by rewrite IH. Qed.

Lemma NoDup_map_filter {A B} (f : A -> B) (p : A -> bool) (l : list A) :
  NoDup (map f l) -> NoDup (map f (List.filter p l)).
Proof.
  induction l as [|a l IH]; [done|]. cbn [map List.filter].
  intros [Ha Hl]%NoDup_cons. destruct (p a); [|by apply IH].
  cbn [map]. apply NoDup_cons. split; [|by apply IH].
  rewrite list_elem_of_In, in_map_iff. intros (b & Hb & [Hin _]%filter_In).
  apply Ha. rewrite list_elem_of_In, in_map_iff. by exists b.
Qed.

Lemma image_paths_nodup output_dir (messages : list Message) :
  NoDup (map message_id messages) ->
  Forall (fun m =>
            file_dir m
            = path_join output_dir (py "message_" ++ str_of_nat (message_id m))
            /\ NoDup (map filename (files m))) messages ->
  NoDup (flat_map image_paths messages).
Proof.
  induction messages as [|m ms IH]; [constructor|].
  cbn [map flat_map]. intros [Hm Hms]%NoDup_cons [[Hdir Hnames] Hall]%Forall_cons.
  apply NoDup_app. split_and!; [|clear IH|by apply IH].
  - unfold image_paths.
    rewrite <- (map_map filename (fun n => file_dir m ++ py "/" ++ n)).
    rewrite map_fmap. apply (NoDup_fmap_2_strong _).
    + intros n n' _ _ H. by apply app_inv_head, app_inv_head in H.
    + by apply NoDup_map_filter.
  - intros x Hx Hx'. apply Hm.
    unfold image_paths in Hx. rewrite list_elem_of_In, in_map_iff in Hx.
    destruct Hx as (f & <- & _).
    rewrite list_elem_of_In, in_flat_map in Hx'.
    destruct Hx' as (m' & Hm' & Hx').
    unfold image_paths in Hx'. rewrite in_map_iff in Hx'.
    destruct Hx' as (f' & Heq & _).
    rewrite Forall_forall in Hall.
    apply list_elem_of_In in Hm'.
    destruct (Hall m' Hm') as [Hdir' _].
    rewrite Hdir, Hdir' in Heq.
    apply staging_path_inj in Heq as [Heq _].
    rewrite <- Heq. rewrite list_elem_of_In. apply in_map.
    by apply list_elem_of_In.
Qed.

Section StagingProperties.

Variable datetime : Type.
Variable epoch_to_datetime : str -> result datetime.
Variable strftime : datetime -> str -> str.
Variable os_path_exists : list io_call -> str -> result bool.
Variable os_makedirs : list io_call -> str -> result unit.
Variable requests_get : list io_call -> str -> result (option str).
Variable write_file : list io_call -> str -> str -> result unit.

Let download :=
  download_files os_path_exists os_makedirs requests_get write_file.

Lemma writes_download_file file_dir file :
  writes (download_file requests_get write_file file_dir file)
    [file_dir ++ py "/" ++ filename file].
Proof.
  unfold download_file. destruct (url_download file) as [u|].
  - apply (writes_bind _ _ [] _); [apply (writes_io (RequestsGet u))|].
    intros [content|]; [apply (writes_io (WriteFile _ _))|].
    eapply writes_weaken; [|apply writes_ret]. apply sublist_nil_l.
  - eapply writes_weaken; [|apply writes_ret]. apply sublist_nil_l.
Qed.

Lemma writes_download_message message :
  writes (download_message os_path_exists os_makedirs requests_get
            write_file message)
    (image_paths message).
Proof.
  unfold download_message, image_paths.
  destruct (0 <? length (files message));
    [|eapply writes_weaken; [apply sublist_nil_l|apply writes_ret]].
  destruct (0 <? length (List.filter _ (files message)));
    [|eapply writes_weaken; [apply sublist_nil_l|apply writes_ret]].
  apply (writes_bind _ _ [] _); [apply (writes_io (PathExists _))|].
  intros present. apply (writes_bind _ _ [] _).
  - destruct present; [apply writes_ret|apply (writes_io (Makedirs _))].
  - intros _.
    eapply writes_weaken;
      [|apply writes_for; intros file; apply writes_download_file].
    rewrite flat_map_singleton. reflexivity.
Qed.

(** On a parsed history the path strings that [download_files] opens for
    writing are staging paths of image attachments, in the order of the
    messages and their attachments, and they are pairwise distinct, whatever
    the file system and the network answer.  This is about the strings: two
    distinct strings can still name one file (["a.png"] and ["./a.png"], or
    names that differ in case on a file system that ignores it). *)
Theorem download_files_paths_distinct
    (members : gmap str str) (output_dir : str)
    (messages_raw : list RawMessage) (messages : list Message) :
  _set_messages datetime epoch_to_datetime strftime
    members output_dir messages_raw = Ok messages ->
  written (download messages).1 `sublist_of` flat_map image_paths messages
  /\ NoDup (written (download messages).1).
Proof.
  unfold _set_messages. intros H.
  apply _set_messages_loop_spec in H as (new & -> & Hlen & Hids & Hnth).
  cbn [app]. unfold download, download_files.
  destruct (writes_for _ _ new writes_download_message []) as (d & -> & Hsub).
  cbn [written flat_map app].
  split; [exact Hsub|].
  eapply sublist_NoDup; [|exact Hsub].
  apply (image_paths_nodup output_dir).
  - rewrite Hids. apply NoDup_seq.
  - apply Forall_forall. intros m Hm.
    apply list_elem_of_lookup in Hm as [i Hi].
    destruct (lookup_lt_is_Some_2 (rev messages_raw) i) as [r Hr].
    { rewrite <- Hlen. by eapply lookup_lt_Some. }
    destruct (Hnth i r Hr) as (m' & Hm' & Hparse).
    rewrite Hi in Hm'. injection Hm' as <-.
    apply parse_message_inv in Hparse
      as (?&?&?&_&_&_&->&_&_&_&->&->&_).
    split; [done|]. apply parse_files_nodup. constructor.
Qed.

End StagingProperties.

Lemma download_files_paths_distinct_witness :
  exists messages,
    _set_messages str epoch_string epoch_strftime
      example_members (py "out") [files_record; join_record] = Ok messages
    /\ written (download_files (fun _ _ => Ok false) (fun _ _ => Ok tt)
                  (fun _ url => Ok (Some url)) (fun _ _ _ => Ok tt)
                  messages).1
       = [py "out/message_2/a.png"; py "out/message_2/a (1).png"]
    /\ NoDup (written (download_files (fun _ _ => Ok false) (fun _ _ => Ok tt)
                         (fun _ url => Ok (Some url)) (fun _ _ _ => Ok tt)
                         messages).1).
Proof.
  eexists. split; [vm_compute; reflexivity|].
  split; [vm_compute; reflexivity|].
  refine (proj2 (download_files_paths_distinct str epoch_string epoch_strftime
                   (fun _ _ => Ok false) (fun _ _ => Ok tt)
                   (fun _ url => Ok (Some url)) (fun _ _ _ => Ok tt)
                   example_members (py "out") [files_record; join_record] _ _)).
  vm_compute. reflexivity.
Defined.

(** ** [unique_filename] on a name that is free *)

Lemma unique_filename_unchanged orig_filename (file_list : list str) :
  orig_filename ∉ file_list ->
  unique_filename orig_filename file_list = orig_filename.
Proof.
  intros Hfree. unfold unique_filename, unique_filename_fuel.
  pose proof (splitext_join orig_filename) as Hjoin.
  destruct (splitext orig_filename) as [stem ext]. cbn [fst snd] in Hjoin.
  cbn [unique_filename_loop]. rewrite Hjoin.
  by rewrite bool_decide_eq_false_2.
Qed.

(** A name that is not in the list is returned as it is; so the name
    [unique_filename] returns is returned again when it is asked for against
    the same list. *)
Theorem unique_filename_stable (orig_filename : str) (file_list : list str) :
  (orig_filename ∉ file_list ->
   unique_filename orig_filename file_list = orig_filename)
  /\ unique_filename (unique_filename orig_filename file_list) file_list
     = unique_filename orig_filename file_list.
Proof.
  split; [apply unique_filename_unchanged|].
  apply unique_filename_unchanged, unique_filename_fresh.
Qed.

(** ** The text and the title of the document *)

Lemma hex_digit_latin1 d : (d < 16)%N -> (hex_digit d <? 256)%N = true.
Proof.
  intros Hd. unfold hex_digit. apply N.ltb_lt.
  destruct (d <? 10)%N; lia.
Qed.

Lemma backslashreplace_char_latin1 c :
  forallb (fun c => c <? 256)%N (backslashreplace_char c) = true.
Proof.
  unfold backslashreplace_char.
  destruct (c <? 256)%N eqn:E; [cbn; by rewrite E|].
  destruct (c <? 65536)%N; cbn [app map forallb];
    rewrite ?hex_digit_latin1 by (apply N.mod_lt; lia); done.
Qed.

(** The text handed to [multi_cell] holds no code point above U+00FF, and a
    text that holds none is handed over unchanged. *)
Theorem backslashreplace_latin1 (s : str) :
  forallb (fun c => c <? 256)%N (backslashreplace s) = true
  /\ (forallb (fun c => c <? 256)%N s = true -> backslashreplace s = s).
Proof.
  unfold backslashreplace. split.
  - induction s as [|c s IH]; [done|]. cbn [flat_map].
    by rewrite forallb_app, backslashreplace_char_latin1, IH.
  - induction s as [|c s IH]; [done|]. cbn [forallb flat_map].
    intros [Hc Hs]%andb_true_iff. rewrite (IH Hs).
    unfold backslashreplace_char. by rewrite Hc.
Qed.


